(** * Heliocentric calendar: the orbital calendar assembly engine

    A shallow embedding of [CalendarGenerator.ts] (the parameterised,
    memoising revision of the generator, together with the older
    parameterless revision whose control flow is the same) and the
    properties of its normaliser, its day filter, its bisection search and
    its day-by-day assembly loop.

    Numbers.  JavaScript numbers are IEEE doubles.  They are modelled by
    exact rationals [Q]: every double is a rational, [%] (fmod) and
    [Math.floor] are exact on doubles, and [toFixed] rounds the exact value
    of its receiver.  The rounding error of [+], [-], [/] is not modelled.
    Instants ([Date], [moment]) are integer milliseconds since the epoch,
    [Z].  The calendar date of an instant in UTC (what
    [.utc().format('YYYY-MM-DD')] prints) is its day number
    [t / 86400000]; dates are compared as the memoising revision compares
    them, in UTC.  Logging is left out. *)

From Stdlib Require Import ZArith QArith Qround Qabs String List Lia Lqa Permutation.
From stdpp Require Import gmap list.
Import ListNotations.

Local Open Scope Z_scope.

(** ** Constants *)

Definition MILLISECONDS_PER_DAY : Z := 86400000.
Definition DEGREES_IN_CIRCLE : Q := 360.
Definition DEGREES_PER_MONTH : Q := 30.
Definition MONTHS_IN_YEAR : Z := 12.
Definition DEGREE_PRECISION : Q := 1 # 1000.
Definition MAX_BINARY_SEARCH_ITERATIONS : nat := 100.
Definition HOUR_ANGLE_HORIZON : Q := 12.

(** ** JavaScript number primitives on exact rationals *)

Definition Qltb (x y : Q) : bool := negb (Qle_bool y x).

(** Truncation toward zero. *)
Definition Qtrunc (x : Q) : Z := Z.quot (Qnum x) (Zpos (Qden x)).

(** [x % m]: the remainder has the sign of the dividend. *)
Definition js_rem (x m : Q) : Q := (x - m * inject_Z (Qtrunc (x / m)))%Q.

Definition Math_floor (x : Q) : Z := Qfloor x.

(** [x.toFixed(2)]: the integer [n] for which [n / 100] is nearest to [x],
    the larger one on a tie, taken on the absolute value and signed
    afterwards.  The decimal string is represented by its number of
    hundredths. *)
Definition toFixed2 (x : Q) : Z :=
  let n := Qfloor (Qabs x * 100 + (1 # 2))%Q in
  if Qltb x 0 then - n else n.

(** [parseFloat] of a string with two decimals. *)
Definition parseFloat2 (n : Z) : Q := n # 100.

(** [getDegree]: offset of a heliocentric longitude from the Spring Equinox
    longitude.  The sum [helioLongitude - springEquinoxLongitude + 360] is
    taken exactly; the double the code computes for it can differ from it
    by a rounding, so a statement on [getDegree] speaks of the code at the
    sum it computes. *)
Definition getDegree (helioLongitude springEquinoxLongitude : Q) : Q :=
  parseFloat2
    (toFixed2 (js_rem (helioLongitude - springEquinoxLongitude + DEGREES_IN_CIRCLE)
                      DEGREES_IN_CIRCLE)).

(** The month index of a normalised degree:
    [Math.floor(deg / DEGREES_PER_MONTH)], reset to 0 when it reaches
    [MONTHS_IN_YEAR]. *)
Definition monthIndexOf (deg : Q) : Z :=
  let monthIndex := Math_floor (deg / DEGREES_PER_MONTH) in
  if MONTHS_IN_YEAR <=? monthIndex then 0 else monthIndex.

(** The day filter: does the degree span of the solar day cover the
    target? *)
Definition degreeRangeCoversBirthTarget (SolarStartDegree SolarEndDegree T : Q) : bool :=
  if Qle_bool SolarStartDegree SolarEndDegree
  then (if Qle_bool SolarStartDegree T && Qle_bool T SolarEndDegree then true else false)
  else (if Qle_bool SolarStartDegree T || Qle_bool T SolarEndDegree then true else false).

(** ** The normaliser in the words of the specification

    [(longitude - reference + 360) mod 360] with the mathematical
    (floored) remainder, rounded to the nearest hundredth. *)
Module SpecWording.

Definition Qmod (x m : Q) : Q := (x - m * inject_Z (Qfloor (x / m)))%Q.

Definition round2 (x : Q) : Q := Qfloor (x * 100 + (1 # 2)) # 100.

Definition normalize (longitude referenceLongitude : Q) : Q :=
  round2 (Qmod (longitude - referenceLongitude + 360) 360).

End SpecWording.

(** ** Data model *)

(** The zodiac months, numbered from 1 as the TypeScript enum is. *)
Inductive Months :=
  | Aries | Taurus | Gemini | Cancer | Leo | Virgo
  | Libra | Scorpio | Sagittarius | Capricorn | Aquarius | Pisces.

Definition Months_of_number (m : Z) : option Months :=
  match m with
  | 1 => Some Aries | 2 => Some Taurus | 3 => Some Gemini | 4 => Some Cancer
  | 5 => Some Leo | 6 => Some Virgo | 7 => Some Libra | 8 => Some Scorpio
  | 9 => Some Sagittarius | 10 => Some Capricorn | 11 => Some Aquarius
  | 12 => Some Pisces | _ => None
  end.

(** The reverse mapping [Months[m]] of the enum. *)
Definition Months_name (m : Z) : string :=
  match Months_of_number m with
  | Some Aries => "Aries" | Some Taurus => "Taurus" | Some Gemini => "Gemini"
  | Some Cancer => "Cancer" | Some Leo => "Leo" | Some Virgo => "Virgo"
  | Some Libra => "Libra" | Some Scorpio => "Scorpio"
  | Some Sagittarius => "Sagittarius" | Some Capricorn => "Capricorn"
  | Some Aquarius => "Aquarius" | Some Pisces => "Pisces"
  | None => "undefined"
  end%string.

(** An entry of a day's [Events] array.  The formatted [date] string is
    kept as the instant it prints. *)
Record CalEvent := mkCalEvent {
  ev_name : string;
  ev_description : string;
  ev_date : Z
}.

Record Day := mkDay {
  Number : Z;
  Date : Z;
  SolarStart : Z;
  SolarNoon : Z;
  SolarEnd : Z;
  MoonPhase : string;
  Delta : string * Q;
  SolarDegree : Q;
  DayEvents : list CalEvent
}.

Record Month := mkMonth {
  MonthNo : Z;
  Name : string;
  TotalDays : Z;
  Days : list Day
}.

(** The astronomical events of a calendar year, interface [Events]. *)
Record Events := mkEvents {
  SpringEquinox : Z;
  SummerSolstice : Z;
  AutumnEquinox : Z;
  WinterSolstice : Z;
  SpringEquinox2 : Z;
  Aphelion : Z;
  Perihelion : Z;
  Birth : Z
}.

Record Observer := mkObserver {
  latitude : Q;
  longitude : Q;
  elevation : Q
}.

(** ** Collaborators

    The astronomy library and the civil-time library are not part of the
    repository; the generator is parameterised by them. *)

Record SeasonsInfo := mkSeasons {
  mar_equinox : Z;
  jun_solstice : Z;
  sep_equinox : Z;
  dec_solstice : Z
}.

Record Ephemeris := mkEphemeris {
  (** [Math.atan2(y, x) * RADIANS_TO_DEGREES] for
      [HelioVector(Body.Earth, date)]. *)
  HelioVectorAngle : Z -> Q;
  Seasons : Z -> SeasonsInfo;
  (** [SearchPlanetApsis(Body.Earth, start).time] *)
  SearchPlanetApsis : Z -> Z;
  (** [NextPlanetApsis(Body.Earth, apsis).time], from the time of [apsis]. *)
  NextPlanetApsis : Z -> Z;
  (** [SearchHourAngle(Body.Sun, observer, hourAngle, date, direction).time] *)
  SearchHourAngle : Observer -> Q -> Z -> Z -> Z;
  (** [MoonPhase(date)], the lunar phase angle. *)
  LunarPhase : Z -> Q
}.

Record CivilTime := mkCivilTime {
  (** [moment.tz(birthDate + ' ' + birthTime, 'YYYY-MM-DD HH:mm', timezone)] *)
  momentTz : string -> string -> string -> Z;
  (** [m.utc().year()] *)
  utcYear : Z -> Z;
  (** [new Date(year, monthIndex, day)] in the process's local zone *)
  localDate : Z -> Z -> Z -> Z
}.

(** ** Civil days *)

(** The UTC calendar date of an instant, as a day number. *)
Definition utcDay (t : Z) : Z := t / MILLISECONDS_PER_DAY.

(** [a.isBefore(b, 'day')] on UTC moments: the end of [a]'s day precedes
    [b]. *)
Definition isBefore_day (a b : Z) : bool :=
  (utcDay a * MILLISECONDS_PER_DAY + (MILLISECONDS_PER_DAY - 1)) <? b.

(** [a.utc().format('YYYY-MM-DD') === b.utc().format('YYYY-MM-DD')] *)
Definition sameUtcDate (a b : Z) : bool := utcDay a =? utcDay b.

(** [m.clone().utc().hours(12).minutes(0).seconds(0).milliseconds(0)] *)
Definition noonUtc (t : Z) : Z := utcDay t * MILLISECONDS_PER_DAY + 43200000.

(** ** Errors, and the state monad over the longitude cache *)

Inductive JsError :=
  | TypeError       (* property access on [undefined] *)
  | FuelExhausted.  (* the model's loop bound was reached *)

Inductive Res (A : Type) :=
  | Ok (a : A)
  | Throw (e : JsError).
Arguments Ok {A} a.
Arguments Throw {A} e.

(** [heliocentricLongitudeCache]: keyed by [date.toISOString()], which is
    one-to-one with the millisecond instant. *)
Abbreviation Cache := (gmap Z Q).

(** A computation reads and extends the cache; an exception leaves the
    cache as it was when it was thrown. *)
Definition M (A : Type) : Type := Cache -> Res A * Cache.

Definition ret {A} (a : A) : M A := fun c => (Ok a, c).

Definition bind {A B} (m : M A) (f : A -> M B) : M B :=
  fun c => match m c with
           | (Ok a, c') => f a c'
           | (Throw e, c') => (Throw e, c')
           end.

Definition throw {A} (e : JsError) : M A := fun c => (Throw e, c).

Notation "'let*' x ':=' m 'in' k" := (bind m (fun x => k))
  (at level 10, x name, m at level 100, k at level 200, only parsing).

(** The value a computation returns when it is started on an empty cache. *)
Definition valueOf {A} (m : M A) : Res A := fst (m ∅).

(** ** The generator *)

Record DayInfo := mkDayInfo {
  di_MoonPhase : string;
  di_SolarStart : Z;
  di_SolarNoon : Z;
  di_SolarEnd : Z;
  di_Delta : string * Q
}.

(** The loop variables of the day-by-day pass of [generateCalendarYear]. *)
Record SweepState := mkSweep {
  newCalendar : list Month;
  currentDate : Z;
  finalFoundBirthMoment : Z
}.

(** The module-level variables [observer], [heliocentricLongitudeCache] and
    [calendar]. *)
Record Globals := mkGlobals {
  g_observer : option Observer;
  g_cache : gmap Z Q;
  g_calendar : list Month
}.

Definition moonPhaseName (Moon : Q) : string :=
  (if Qle_bool 0 Moon && Qltb Moon 45 then "New Moon"
   else if Qle_bool 45 Moon && Qltb Moon 90 then "Waxing Cres."
   else if Qle_bool 90 Moon && Qltb Moon 135 then "First Quarter"
   else if Qle_bool 135 Moon && Qltb Moon 180 then "Waxing Gibb."
   else if Qle_bool 180 Moon && Qltb Moon 225 then "Full Moon"
   else if Qle_bool 225 Moon && Qltb Moon 270 then "Waning Gibb."
   else if Qle_bool 270 Moon && Qltb Moon 315 then "Third Quarter"
   else if Qle_bool 315 Moon && Qle_bool Moon 360 then "Waning Cres."
   else "")%string.

Definition equinoxSolsticeEvents (eventList : Events) : list CalEvent :=
  [ mkCalEvent "Spring Equinox" "The beginning of Spring." (SpringEquinox eventList);
    mkCalEvent "Summer Solstice" "The longest day of the year." (SummerSolstice eventList);
    mkCalEvent "Autumn Equinox" "The beginning of Autumn." (AutumnEquinox eventList);
    mkCalEvent "Winter Solstice" "The shortest day of the year." (WinterSolstice eventList);
    mkCalEvent "Aphelion" "Earth is farthest away from the Sun." (Aphelion eventList);
    mkCalEvent "Perihelion" "The Earth is closest to the Sun." (Perihelion eventList) ].

Definition BirthOrbit (found : Z) : CalEvent :=
  mkCalEvent "BirthOrbit" "Birthday" found.

(** The twelve empty months [generateCalendarYear] starts from. *)
Definition emptyCalendar : list Month :=
  map (fun m => mkMonth m (Months_name m) 0 []) [1; 2; 3; 4; 5; 6; 7; 8; 9; 10; 11; 12].

(** [newCalendar[monthIndex]]: [undefined] outside the array. *)
Definition monthAt (cal : list Month) (monthIndex : Z) : option Month :=
  if 0 <=? monthIndex then cal !! Z.to_nat monthIndex else None.

Section Generator.

Variable eph : Ephemeris.
Variable civ : CivilTime.

(** [getHeliocentricLongitude]: the cached value when there is one,
    otherwise the longitude computed from the position vector, which is
    then stored. *)
Definition getHeliocentricLongitude (date : Z) : M Q :=
  fun cache =>
    match cache !! date with
    | Some cachedValue => (Ok cachedValue, cache)
    | None =>
        let heliocentricLongitude :=
          js_rem (HelioVectorAngle eph date + DEGREES_IN_CIRCLE) DEGREES_IN_CIRCLE in
        (Ok heliocentricLongitude, <[date := heliocentricLongitude]> cache)
    end.

Definition getDayInfo (observer : Observer) (date : Z) : DayInfo :=
  let SolarNoon := SearchHourAngle eph observer 0 date 1 in
  let Moon := LunarPhase eph SolarNoon in
  let Phase := moonPhaseName Moon in
  let SolarStart := SearchHourAngle eph observer HOUR_ANGLE_HORIZON SolarNoon (-1) in
  let SolarEnd := SearchHourAngle eph observer HOUR_ANGLE_HORIZON SolarNoon 1 in
  let TimeInDay := SolarEnd - SolarStart in
  let sign := if MILLISECONDS_PER_DAY <=? TimeInDay then "+"%string else "-"%string in
  let duration := TimeInDay - MILLISECONDS_PER_DAY in
  let formattedDuration := (inject_Z (Z.abs duration) / 1000)%Q in
  mkDayInfo Phase SolarStart SolarNoon SolarEnd (sign, formattedDuration).

Definition getBirthDegree (birthDate : Z) : M Q :=
  let BirthYearSeasons := Seasons eph (utcYear civ birthDate) in
  let birthYearEquinox := mar_equinox BirthYearSeasons in
  let* springEquinoxLongitude :=
    (if birthDate <? birthYearEquinox
     then
       let previousSeasons := Seasons eph (utcYear civ birthDate - 1) in
       getHeliocentricLongitude (mar_equinox previousSeasons)
     else getHeliocentricLongitude birthYearEquinox) in
  let* BirthLongitude := getHeliocentricLongitude birthDate in
  ret (getDegree BirthLongitude springEquinoxLongitude).

Definition eventList (year : Z) (birth : Z) : Events :=
  let season := Seasons eph year in
  let nextSeason := Seasons eph (year + 1) in
  let Apsis := SearchPlanetApsis eph (localDate civ year 4 1) in
  mkEvents (mar_equinox season) (jun_solstice season) (sep_equinox season)
           (dec_solstice season) (mar_equinox nextSeason)
           Apsis (NextPlanetApsis eph Apsis) birth.

Section Year.

Variable events : Events.
Variable observer : Observer.
Variable springEquinoxLongitude : Q.
Variable TRUE_TARGET_BIRTH_DEGREE : Q.

(** The binary search inside one candidate day.  [fuel] is what is left
    of [MAX_BINARY_SEARCH_ITERATIONS]. *)
Fixpoint binarySearch (fuel : nat) (SolarStartDegree SolarEndDegree : Q)
         (low high : Z) : M (option Z) :=
  match fuel with
  | O => ret None
  | S fuel' =>
      if low <=? high then
        let mid := low + (high - low) / 2 in
        let* lon := getHeliocentricLongitude mid in
        let testDegree := getDegree lon springEquinoxLongitude in
        if Qltb (Qabs (testDegree - TRUE_TARGET_BIRTH_DEGREE)) DEGREE_PRECISION
        then ret (Some mid)
        else if Qltb testDegree TRUE_TARGET_BIRTH_DEGREE then
          if Qltb SolarEndDegree SolarStartDegree
             && Qltb testDegree SolarEndDegree
             && Qltb SolarStartDegree TRUE_TARGET_BIRTH_DEGREE
          then binarySearch fuel' SolarStartDegree SolarEndDegree low (mid - 1)
          else binarySearch fuel' SolarStartDegree SolarEndDegree (mid + 1) high
        else
          if Qltb SolarEndDegree SolarStartDegree
             && Qltb SolarStartDegree testDegree
             && Qltb TRUE_TARGET_BIRTH_DEGREE SolarEndDegree
          then binarySearch fuel' SolarStartDegree SolarEndDegree (mid + 1) high
          else binarySearch fuel' SolarStartDegree SolarEndDegree low (mid - 1)
      else ret None
  end.

(** The search of one day: the degree span of the solar day, the filter,
    and the binary search when the filter passes.  The result is
    [birthMomentCurrentIteration]. *)
Definition searchDay (dayInfo : DayInfo) : M (option Z) :=
  let* lonStart := getHeliocentricLongitude (di_SolarStart dayInfo) in
  let SolarStartDegree := getDegree lonStart springEquinoxLongitude in
  let* lonEnd := getHeliocentricLongitude (di_SolarEnd dayInfo) in
  let SolarEndDegree := getDegree lonEnd springEquinoxLongitude in
  if degreeRangeCoversBirthTarget SolarStartDegree SolarEndDegree
                                  TRUE_TARGET_BIRTH_DEGREE
  then binarySearch MAX_BINARY_SEARCH_ITERATIONS SolarStartDegree SolarEndDegree
                    (di_SolarStart dayInfo) (di_SolarEnd dayInfo)
  else ret None.

(** The events of the day being processed, given the moment
    [finalFoundBirthMoment] holds at that point. *)
Definition eventsOfDay (found current : Z) : list CalEvent :=
  if sameUtcDate found current
  then [BirthOrbit found]
  else
    map (fun event => mkCalEvent (ev_name event) (ev_description event) (ev_date event))
        (filter (fun event => sameUtcDate (ev_date event) current = true)
                (equinoxSolsticeEvents events)).

(** One iteration of the [while] loop over the days. *)
Definition processDay (st : SweepState) : M SweepState :=
  let dayInfo := getDayInfo observer (currentDate st) in
  let* birthMomentCurrentIteration := searchDay dayInfo in
  let found :=
    match birthMomentCurrentIteration with
    | Some m => m
    | None => finalFoundBirthMoment st
    end in
  let* currentHelioLongitude := getHeliocentricLongitude (di_SolarNoon dayInfo) in
  let monthIndex := monthIndexOf (getDegree currentHelioLongitude springEquinoxLongitude) in
  let events := eventsOfDay found (currentDate st) in
  match monthAt (newCalendar st) monthIndex with
  | None => throw TypeError
  | Some month =>
      let day :=
        mkDay (Z.of_nat (length (Days month)) + 1)
              (noonUtc (currentDate st))
              (di_SolarStart dayInfo) (di_SolarNoon dayInfo) (di_SolarEnd dayInfo)
              (di_MoonPhase dayInfo) (di_Delta dayInfo)
              (getDegree currentHelioLongitude springEquinoxLongitude)
              events in
      let month' :=
        mkMonth (MonthNo month) (Name month) (TotalDays month) (Days month ++ [day]) in
      ret (mkSweep (<[Z.to_nat monthIndex := month']> (newCalendar st))
                   (currentDate st + MILLISECONDS_PER_DAY)
                   found)
  end.

(** [while (currentDate.isBefore(eventList.SpringEquinox2, 'day'))] *)
Fixpoint sweep (fuel : nat) (st : SweepState) : M SweepState :=
  if isBefore_day (currentDate st) (SpringEquinox2 events) then
    match fuel with
    | O => throw FuelExhausted
    | S fuel' => let* st' := processDay st in sweep fuel' st'
    end
  else ret st.

End Year.

(** The number of iterations the day loop can make. *)
Definition daysToSweep (events : Events) : nat :=
  Z.to_nat (utcDay (SpringEquinox2 events) - utcDay (SpringEquinox events)).

Definition finalizeMonth (month : Month) : Month :=
  mkMonth (MonthNo month) (Name month) (Z.of_nat (length (Days month))) (Days month).

(** The pass over the days, from the loop's initial state. *)
Definition sweepYear (events : Events) (observer : Observer) : M SweepState :=
  let* springEquinoxLongitude := getHeliocentricLongitude (SpringEquinox events) in
  let* TRUE_TARGET_BIRTH_DEGREE := getBirthDegree (Birth events) in
  sweep events observer springEquinoxLongitude TRUE_TARGET_BIRTH_DEGREE
        (daysToSweep events)
        (mkSweep emptyCalendar (SpringEquinox events) (Birth events)).

(** [generateCalendarYear]; the result is the new content of the global
    [calendar]. *)
Definition generateCalendarYear (events : Events) (observer : Observer) : M (list Month) :=
  let* st := sweepYear events observer in
  ret (map finalizeMonth (newCalendar st)).

(** [generateCalendar]: the observer is replaced, the cache is cleared,
    and the calendar is replaced when the year was generated.  The call
    is modelled from the point where [new Observer] has accepted the
    coordinates and the birth strings have been parsed to an instant: a
    call that the constructor refuses throws before any of this, and is
    not modelled. *)
Definition generateCalendar (year : Z) (birthDate birthTime timezone : string)
           (lat lon elev : Q) (g : Globals) : Res (list Month) * Globals :=
  let obs := mkObserver lat lon elev in
  let birthDateTime := momentTz civ birthDate birthTime timezone in
  let cleared : gmap Z Q := ∅ in
  let events := eventList year birthDateTime in
  match generateCalendarYear events obs cleared with
  | (Ok cal, cache') => (Ok cal, mkGlobals (Some obs) cache' cal)
  | (Throw e, cache') => (Throw e, mkGlobals (Some obs) cache' (g_calendar g))
  end.

End Generator.

(** ** A closed instance of the collaborators

    A circular orbit of exactly 365 days in a calendar without leap years:
    the Earth advances 360/365 degrees a day, the March equinox falls at
    09:00 UTC on day 78 of every year, and the Sun crosses the meridian of
    an observer at 12:00 UTC shifted by four minutes per degree of
    longitude. *)
Module Circular.

Definition yearMs : Z := 365 * MILLISECONDS_PER_DAY.

Definition yearStart (y : Z) : Z := (y - 1970) * yearMs.

Definition equinoxOf (y : Z) : Z :=
  yearStart y + 78 * MILLISECONDS_PER_DAY + 9 * 3600000.

(** The longitude is 180 degrees at the March equinox; the angle is
    reported in (-180, 180], as [Math.atan2] does. *)
Definition angle (t : Z) : Q :=
  let lon := (180 + inject_Z (360 * ((t - equinoxOf 1970) mod yearMs)) / inject_Z yearMs)%Q in
  if Qle_bool lon 180 then lon else (lon - 360)%Q.

Definition seasons (y : Z) : SeasonsInfo :=
  mkSeasons (equinoxOf y)
            (equinoxOf y + 92 * MILLISECONDS_PER_DAY + 18 * 3600000)
            (equinoxOf y + 186 * MILLISECONDS_PER_DAY + 10 * 3600000)
            (equinoxOf y + 276 * MILLISECONDS_PER_DAY + 6 * 3600000).

Definition searchApsis (start : Z) : Z := start + 64 * MILLISECONDS_PER_DAY + 20 * 3600000.

Definition nextApsis (apsis : Z) : Z := apsis + 182 * MILLISECONDS_PER_DAY + 15 * 3600000.

(** The time of day, in UTC, at which the Sun is [hourAngle] hours past
    the observer's meridian. *)
Definition timeOfDay (observer : Observer) (hourAngle : Q) : Z :=
  (43200000 - Qfloor (longitude observer * 240000) + Qfloor (hourAngle * 3600000))
    mod MILLISECONDS_PER_DAY.

Definition searchHourAngle (observer : Observer) (hourAngle : Q) (date direction : Z) : Z :=
  let target := timeOfDay observer hourAngle in
  if 0 <=? direction
  then date + (target - date) mod MILLISECONDS_PER_DAY
  else date - (date - target) mod MILLISECONDS_PER_DAY.

Definition synodicMs : Z := 2551442877.

Definition lunarPhase (t : Z) : Q :=
  (inject_Z (360 * (t mod synodicMs)) / inject_Z synodicMs)%Q.

Definition eph : Ephemeris :=
  mkEphemeris angle seasons searchApsis nextApsis searchHourAngle lunarPhase.

(** Civil time without leap years; the parsing of date strings is not
    used by the year pass and is left constant. *)
Definition civ : CivilTime :=
  mkCivilTime (fun _ _ _ => 0)
              (fun t => 1970 + t / yearMs)
              (fun y m d => yearStart y + (30 * m + d - 1) * MILLISECONDS_PER_DAY).

Definition greenwich : Observer := mkObserver (5148 # 100) 0 0.

(** A birth at 00:00 UTC on day 152 (1 June) of the year 2000. *)
Definition birthAtMidnight : Z := yearStart 2000 + 152 * MILLISECONDS_PER_DAY.

(** A birth at 14:00 UTC on day 34 (4 February) of the year 2000. *)
Definition birthInFebruary : Z :=
  yearStart 2000 + 34 * MILLISECONDS_PER_DAY + 14 * 3600000.

End Circular.

(** ** The revision without the cache

    In the older revision of the file [getHeliocentricLongitude] computes
    the longitude afresh on every call, and [getBirthDegree] is built on
    it. *)
Module Uncached.
Section Uncached.

Variable eph : Ephemeris.
Variable civ : CivilTime.

Definition getHeliocentricLongitude (date : Z) : Q :=
  js_rem (HelioVectorAngle eph date + 360) 360.

Definition getBirthDegree (birthDate : Z) : Q :=
  let BirthYearSeasons := Seasons eph (utcYear civ birthDate) in
  let springEquinoxLongitude :=
    if birthDate <? mar_equinox BirthYearSeasons
    then
      let previousSeasons := Seasons eph (utcYear civ birthDate - 1) in
      getHeliocentricLongitude (mar_equinox previousSeasons)
    else getHeliocentricLongitude (mar_equinox BirthYearSeasons) in
  let BirthLongitude := getHeliocentricLongitude birthDate in
  getDegree BirthLongitude springEquinoxLongitude.

End Uncached.
End Uncached.

(** ** Vocabulary of the statements *)

(** [Math.atan2] returns an angle between -180 and 180 degrees. *)
Definition angleContract (eph : Ephemeris) : Prop :=
  forall t, (-180 <= HelioVectorAngle eph t <= 180)%Q.

(** Every cached longitude is the one the ephemeris gives for its key. *)
Definition cacheOk (eph : Ephemeris) (cache : gmap Z Q) : Prop :=
  forall t v, cache !! t = Some v -> v = Uncached.getHeliocentricLongitude eph t.

(** A computation whose result does not depend on which longitudes are
    already cached, and which leaves the cache consistent. *)
Definition transparent (eph : Ephemeris) {A} (m : M A) : Prop :=
  forall cache, cacheOk eph cache ->
    fst (m cache) = valueOf m /\ cacheOk eph (snd (m cache)).

(** A computation that raises no exception, whatever the cache. *)
Definition noThrow {A} (m : M A) : Prop :=
  forall cache, exists a, fst (m cache) = Ok a.

(** All the day records of a calendar, month after month. *)
Definition allDays (cal : list Month) : list Day := concat (map Days cal).

Definition carriesBirthOrbit (d : Day) : bool :=
  existsb (fun e => String.eqb (ev_name e) "BirthOrbit") (DayEvents d).

Section Trace.

Variable eph : Ephemeris.
Variable events : Events.
Variable observer : Observer.
Variable springEquinoxLongitude : Q.
Variable TRUE_TARGET_BIRTH_DEGREE : Q.

(** [currentDate] at the start of iteration [k] of the day loop. *)
Definition dateOfDay (k : nat) : Z :=
  SpringEquinox events + Z.of_nat k * MILLISECONDS_PER_DAY.

(** What the search of iteration [k] reports. *)
Definition dayMatch (k : nat) : option Z :=
  match valueOf (searchDay eph springEquinoxLongitude TRUE_TARGET_BIRTH_DEGREE
                           (getDayInfo eph observer (dateOfDay k))) with
  | Ok r => r
  | Throw _ => None
  end.

(** [finalFoundBirthMoment] after [k] iterations. *)
Fixpoint foundAfter (k : nat) : Z :=
  match k with
  | O => Birth events
  | S j => match dayMatch j with
           | Some m => m
           | None => foundAfter j
           end
  end.

(** The degree at the solar noon of iteration [k]. *)
Definition noonDegree (k : nat) : Q :=
  getDegree
    (Uncached.getHeliocentricLongitude eph
       (di_SolarNoon (getDayInfo eph observer (dateOfDay k))))
    springEquinoxLongitude.

(** [d] is the record made by iteration [k]. *)
Definition recordOfDay (k : nat) (d : Day) : Prop :=
  Date d = noonUtc (dateOfDay k) /\
  SolarDegree d = noonDegree k /\
  DayEvents d = eventsOfDay events (foundAfter (S k)) (dateOfDay k).

(** The loop invariant of the day loop, after [k] iterations. *)
Definition sweepInv (k : nat) (st : SweepState) : Prop :=
  currentDate st = dateOfDay k /\
  finalFoundBirthMoment st = foundAfter k /\
  length (newCalendar st) = 12%nat /\
  Permutation (map Date (allDays (newCalendar st)))
              (map (fun j => noonUtc (dateOfDay j)) (seq 0 k)) /\
  forall (i : nat) (month : Month) (d : Day),
    newCalendar st !! i = Some month -> d ∈ Days month ->
    exists j, (j < k)%nat /\ recordOfDay j d /\
              monthIndexOf (SolarDegree d) = Z.of_nat i.

End Trace.

(** The reference longitude and the target degree of a year's pass. *)
Definition referenceLongitude (eph : Ephemeris) (events : Events) : Q :=
  Uncached.getHeliocentricLongitude eph (SpringEquinox events).

Definition targetDegree (eph : Ephemeris) (civ : CivilTime) (events : Events) : Q :=
  Uncached.getBirthDegree eph civ (Birth events).

(** The sum of [TotalDays] over the months. *)
Definition sumTotalDays (cal : list Month) : Z :=
  foldr Z.add 0 (map TotalDays cal).

(** The civil dates of the day records that carry a [BirthOrbit] event. *)
Definition birthOrbitDates (cal : list Month) : list Z :=
  map (fun d => utcDay (Date d)) (filter (fun d => carriesBirthOrbit d = true) (allDays cal)).

(** The event lists of the day records dated on the civil day [u]. *)
Definition eventsOfDate (cal : list Month) (u : Z) : list (list CalEvent) :=
  map DayEvents (filter (fun d => utcDay (Date d) = u) (allDays cal)).

Definition resMap {A B} (f : A -> B) (r : Res A) : Res B :=
  match r with
  | Ok a => Ok (f a)
  | Throw e => Throw e
  end.

(** ** Two years on the circular orbit *)
Module Scenario.
Import Circular.

(** The year 2025 for a birth at 00:00 UTC, seen from the Greenwich
    meridian, where the solar day runs from 00:00 UTC to 00:00 UTC. *)
Definition events2025 : Events := eventList eph civ 2025 birthAtMidnight.

Definition sel2025 : Q := referenceLongitude eph events2025.

Definition target : Q := targetDegree eph civ events2025.

Definition firstDay : Z := utcDay (SpringEquinox events2025).

(** The same year for a birth at 14:00 UTC on 4 February 2000. *)
Definition events2025feb : Events := eventList eph civ 2025 birthInFebruary.

(** The degree of an instant of that year before it is rounded. *)
Definition unroundedDegree (t : Z) : Q :=
  SpecWording.Qmod (Uncached.getHeliocentricLongitude eph t - sel2025 + 360) 360.

(** The same events with the pass cut to its first three days. *)
Definition shortYear : Events :=
  mkEvents (equinoxOf 2025) (SummerSolstice events2025) (AutumnEquinox events2025)
           (WinterSolstice events2025) (equinoxOf 2025 + 3 * MILLISECONDS_PER_DAY)
           (Aphelion events2025) (Perihelion events2025) birthAtMidnight.

End Scenario.

(** ** Vocabulary of the further properties *)

(** A computation that keeps every cached longitude and caches at most
    [n] more. *)
Definition growsBy {A} (n : nat) (m : M A) : Prop :=
  forall cache, cache ⊆ snd (m cache) /\ (size (snd (m cache)) <= size cache + n)%nat.

(** The search of a day in the revision without the cache. *)
Module UncachedSearch.
Section UncachedSearch.

Variable eph : Ephemeris.
Variable springEquinoxLongitude : Q.
Variable TRUE_TARGET_BIRTH_DEGREE : Q.

Fixpoint binarySearch (fuel : nat) (SolarStartDegree SolarEndDegree : Q)
         (low high : Z) : option Z :=
  match fuel with
  | O => None
  | S fuel' =>
      if low <=? high then
        let mid := low + (high - low) / 2 in
        let testDegree :=
          getDegree (Uncached.getHeliocentricLongitude eph mid) springEquinoxLongitude in
        if Qltb (Qabs (testDegree - TRUE_TARGET_BIRTH_DEGREE)) DEGREE_PRECISION
        then Some mid
        else if Qltb testDegree TRUE_TARGET_BIRTH_DEGREE then
          if Qltb SolarEndDegree SolarStartDegree
             && Qltb testDegree SolarEndDegree
             && Qltb SolarStartDegree TRUE_TARGET_BIRTH_DEGREE
          then binarySearch fuel' SolarStartDegree SolarEndDegree low (mid - 1)
          else binarySearch fuel' SolarStartDegree SolarEndDegree (mid + 1) high
        else
          if Qltb SolarEndDegree SolarStartDegree
             && Qltb SolarStartDegree testDegree
             && Qltb TRUE_TARGET_BIRTH_DEGREE SolarEndDegree
          then binarySearch fuel' SolarStartDegree SolarEndDegree (mid + 1) high
          else binarySearch fuel' SolarStartDegree SolarEndDegree low (mid - 1)
      else None
  end.

Definition searchDay (dayInfo : DayInfo) : option Z :=
  let SolarStartDegree :=
    getDegree (Uncached.getHeliocentricLongitude eph (di_SolarStart dayInfo))
              springEquinoxLongitude in
  let SolarEndDegree :=
    getDegree (Uncached.getHeliocentricLongitude eph (di_SolarEnd dayInfo))
              springEquinoxLongitude in
  if degreeRangeCoversBirthTarget SolarStartDegree SolarEndDegree
                                  TRUE_TARGET_BIRTH_DEGREE
  then binarySearch MAX_BINARY_SEARCH_ITERATIONS SolarStartDegree SolarEndDegree
                    (di_SolarStart dayInfo) (di_SolarEnd dayInfo)
  else None.

End UncachedSearch.
End UncachedSearch.

(** The rounded degree of an instant, from the ephemeris. *)
Definition degreeAt (eph : Ephemeris) (springEquinoxLongitude : Q) (t : Z) : Q :=
  getDegree (Uncached.getHeliocentricLongitude eph t) springEquinoxLongitude.

(** [d] carries the date and the solar day of iteration [q] of the pass. *)
Definition dayOfPass (eph : Ephemeris) (events : Events) (observer : Observer)
           (q : nat) (d : Day) : Prop :=
  Date d = noonUtc (dateOfDay events q) /\
  SolarStart d = di_SolarStart (getDayInfo eph observer (dateOfDay events q)) /\
  SolarNoon d = di_SolarNoon (getDayInfo eph observer (dateOfDay events q)) /\
  SolarEnd d = di_SolarEnd (getDayInfo eph observer (dateOfDay events q)) /\
  MoonPhase d = di_MoonPhase (getDayInfo eph observer (dateOfDay events q)) /\
  Delta d = di_Delta (getDayInfo eph observer (dateOfDay events q)).

(** The shape of the months after [k] iterations: their numbers and names,
    the numbering of their days, and the order of their days. *)
Definition shapeInv (eph : Ephemeris) (events : Events) (observer : Observer)
           (k : nat) (st : SweepState) : Prop :=
  map MonthNo (newCalendar st) = map MonthNo emptyCalendar /\
  map Name (newCalendar st) = map Name emptyCalendar /\
  forall (i : nat) (month : Month),
    newCalendar st !! i = Some month ->
    TotalDays month = 0 /\
    (forall (j : nat) (d : Day),
        Days month !! j = Some d ->
        Number d = Z.of_nat j + 1 /\
        exists q, (q < k)%nat /\ dayOfPass eph events observer q d) /\
    (forall (j1 j2 : nat) (d1 d2 : Day),
        (j1 < j2)%nat -> Days month !! j1 = Some d1 -> Days month !! j2 = Some d2 ->
        Date d1 < Date d2).

(** The eight names of [getDayInfo], in the order of the phase angle. *)
Definition moonPhaseNames : list string :=
  [ "New Moon"; "Waxing Cres."; "First Quarter"; "Waxing Gibb.";
    "Full Moon"; "Waning Gibb."; "Third Quarter"; "Waning Cres." ]%string.

(** The sign character of a [Delta] as a factor. *)
Definition deltaSign (sign : string) : Z :=
  if String.eqb sign "+" then 1 else -1.

(** No match on the days of a pass that [skip] does not exclude. *)
Definition noMatchExcept (eph : Ephemeris) (civ : CivilTime) (events : Events)
           (observer : Observer) (skip : nat -> bool) (j : nat) : bool :=
  skip j ||
  match UncachedSearch.searchDay eph (referenceLongitude eph events)
          (targetDegree eph civ events)
          (getDayInfo eph observer (dateOfDay events j)) with
  | None => true
  | Some _ => false
  end.

(** * Properties *)

(** ** Arithmetic of the normaliser *)

Lemma Qltb_lt (x y : Q) : Qltb x y = true <-> (x < y)%Q.
Proof.
  unfold Qltb. rewrite negb_true_iff. split.
  - intros H. apply Qnot_le_lt. intros Hle. apply Qle_bool_iff in Hle. congruence.
  - intros H. destruct (Qle_bool y x) eqn:E; [|reflexivity].
    apply Qle_bool_iff in E. exfalso. apply (Qlt_not_le _ _ H E).
Qed.

Lemma Qltb_ge (x y : Q) : Qltb x y = false <-> (y <= x)%Q.
Proof.
  unfold Qltb. rewrite negb_false_iff. apply Qle_bool_iff.
Qed.

Lemma Qfloor_bounds (y : Q) (n : Z) :
  (inject_Z n <= y)%Q -> (y < inject_Z (n + 1))%Q -> Qfloor y = n.
Proof.
  intros Hlo Hhi.
  pose proof (Qfloor_le y) as H1. pose proof (Qlt_floor y) as H2.
  assert (Qfloor y < n + 1).
  { rewrite Zlt_Qlt. eapply Qle_lt_trans; eauto. }
  assert (n < Qfloor y + 1).
  { rewrite Zlt_Qlt. eapply Qle_lt_trans; eauto. }
  lia.
Qed.

Lemma Qtrunc_nonneg (x : Q) : (0 <= x)%Q -> Qtrunc x = Qfloor x.
Proof.
  destruct x as [n d]. unfold Qle, Qtrunc, Qfloor. simpl. intros H.
  apply Z.quot_div_nonneg; lia.
Qed.

Lemma js_rem_nonneg (x : Q) :
  (0 <= x)%Q -> js_rem x 360 = SpecWording.Qmod x 360.
Proof.
  intros H. unfold js_rem, SpecWording.Qmod.
  rewrite Qtrunc_nonneg; [reflexivity|].
  apply Qle_shift_div_l; [reflexivity | lra].
Qed.

Lemma Qmod_range (x : Q) :
  (0 <= SpecWording.Qmod x 360 < 360)%Q.
Proof.
  unfold SpecWording.Qmod.
  pose proof (Qfloor_le (x / 360)) as H1. pose proof (Qlt_floor (x / 360)) as H2.
  rewrite inject_Z_plus in H2. change (inject_Z 1) with 1%Q in H2.
  assert (x == 360 * (x / 360))%Q as E by (field).
  set (f := inject_Z (Qfloor (x / 360))) in *.
  set (y := (x / 360)%Q) in *.
  split; lra.
Qed.

Lemma toFixed2_nonneg (x : Q) :
  (0 <= x)%Q -> toFixed2 x = Qfloor (x * 100 + (1 # 2))%Q.
Proof.
  intros H. unfold toFixed2.
  assert (Qltb x 0 = false) as -> by (apply Qltb_ge; exact H).
  apply Qfloor_comp. rewrite (Qabs_pos x H). reflexivity.
Qed.

Lemma getDegree_normalize (h r : Q) :
  (0 <= h - r + 360)%Q -> getDegree h r = SpecWording.normalize h r.
Proof.
  intros H. unfold getDegree, SpecWording.normalize, SpecWording.round2, parseFloat2,
    DEGREES_IN_CIRCLE.
  rewrite (js_rem_nonneg _ H).
  rewrite toFixed2_nonneg; [reflexivity|]. apply Qmod_range.
Qed.

Lemma round2_range (x : Q) :
  (0 <= x < 360)%Q -> (0 <= SpecWording.round2 x <= 360)%Q.
Proof.
  intros [Hlo Hhi]. unfold SpecWording.round2.
  pose proof (Qfloor_le (x * 100 + (1 # 2))) as H1.
  pose proof (Qlt_floor (x * 100 + (1 # 2))) as H2.
  set (n := Qfloor (x * 100 + (1 # 2))) in *.
  assert (0 <= n).
  { assert (-1 < n) by (rewrite Zlt_Qlt; rewrite inject_Z_plus in H2;
      change (inject_Z 1) with 1%Q in H2; change (inject_Z (-1)) with (-1)%Q;
      change (inject_Z 0) with 0%Q in *; lra). lia. }
  assert (n <= 36000).
  { assert (n < 36001) by (rewrite Zlt_Qlt; change (inject_Z 36001) with 36001%Q; lra). lia. }
  unfold Qle. simpl. lia.
Qed.

Lemma round2_360 (x : Q) :
  (0 <= x < 360)%Q -> (SpecWording.round2 x == 360 <-> (359995 # 1000) <= x)%Q.
Proof.
  intros [Hlo Hhi]. unfold SpecWording.round2.
  pose proof (Qfloor_le (x * 100 + (1 # 2))) as H1.
  pose proof (Qlt_floor (x * 100 + (1 # 2))) as H2.
  set (n := Qfloor (x * 100 + (1 # 2))) in *.
  rewrite inject_Z_plus in H2. change (inject_Z 1) with 1%Q in H2.
  split.
  - intros E. assert (n = 36000) as En by (unfold Qeq in E; simpl in E; lia).
    rewrite En in H1. change (inject_Z 36000) with 36000%Q in H1. lra.
  - intros H. assert (36000 <= n).
    { assert (35999 < n) by (rewrite Zlt_Qlt; change (inject_Z 35999) with 35999%Q; lra). lia. }
    assert (n < 36001) by (rewrite Zlt_Qlt; change (inject_Z 36001) with 36001%Q; lra).
    assert (n = 36000) as -> by lia. reflexivity.
Qed.

Lemma getDegree_range (h r : Q) :
  (0 <= h - r + 360)%Q -> (0 <= getDegree h r <= 360)%Q.
Proof.
  intros H. rewrite (getDegree_normalize _ _ H).
  apply round2_range, Qmod_range.
Qed.

(** C1 (as amended).  Whenever [longitude - reference + 360] is not
    negative, as it is for two longitudes in [0, 360), [getDegree] returns
    [(longitude - reference + 360) mod 360] rounded to two decimals, and
    the result lies in the closed interval [0, 360]: it is exactly 360 when
    the remainder before rounding is 359.995 or more. *)
Theorem getDegree_closed_range (h r : Q) :
  (0 <= h - r + 360)%Q ->
  getDegree h r = SpecWording.normalize h r /\
  (0 <= getDegree h r <= 360)%Q /\
  (getDegree h r == 360 <->
   (359995 # 1000) <= SpecWording.Qmod (h - r + 360) 360)%Q.
Proof.
  intros H. rewrite (getDegree_normalize _ _ H). unfold SpecWording.normalize.
  split; [reflexivity|]. split.
  - apply round2_range, Qmod_range.
  - apply round2_360, Qmod_range.
Qed.

Lemma getDegree_closed_range_witness :
  (0 <= (359999 # 1000) - 0 + 360)%Q /\
  (getDegree (359999 # 1000) 0 == 360 <->
   (359995 # 1000) <= SpecWording.Qmod ((359999 # 1000) - 0 + 360) 360)%Q.
Proof.
  assert (0 <= (359999 # 1000) - 0 + 360)%Q as H by (vm_compute; discriminate).
  split; [exact H|]. exact (proj2 (proj2 (getDegree_closed_range _ _ H))).
Defined.

(** C1 as stated fails: a longitude of 359.999 degrees past the reference
    is normalised to exactly 360. *)
Lemma getDegree_not_below_360 :
  (getDegree (359999 # 1000) 0 == 360)%Q /\
  ~ (0 <= getDegree (359999 # 1000) 0 < 360)%Q.
Proof.
  split; [reflexivity|]. intros [_ H]. vm_compute in H. discriminate.
Qed.

Example getDegree_negative_dividend : (getDegree (-1000) 0 == -280)%Q.
Proof. reflexivity. Qed.

Lemma floor_div30 (v : Q) :
  (30 * inject_Z (Math_floor (v / 30)) <= v < 30 * inject_Z (Math_floor (v / 30)) + 30)%Q.
Proof.
  unfold Math_floor.
  pose proof (Qfloor_le (v / 30)) as H1. pose proof (Qlt_floor (v / 30)) as H2.
  rewrite inject_Z_plus in H2. change (inject_Z 1) with 1%Q in H2.
  assert (v == 30 * (v / 30))%Q as E by field.
  set (f := inject_Z (Qfloor (v / 30))) in *. set (y := (v / 30)%Q) in *.
  split; lra.
Qed.

Lemma monthIndexOf_bucket (v : Q) :
  (30 * inject_Z (monthIndexOf v) <= v < 30 * inject_Z (monthIndexOf v) + 30)%Q \/
  (monthIndexOf v = 0 /\ (360 <= v)%Q).
Proof.
  unfold monthIndexOf, DEGREES_PER_MONTH, MONTHS_IN_YEAR.
  pose proof (floor_div30 v) as [H1 H2].
  destruct (Z.leb_spec 12 (Math_floor (v / 30))) as [H|H].
  - right. split; [reflexivity|].
    apply Qle_trans with (30 * inject_Z (Math_floor (v / 30)))%Q; [|exact H1].
    rewrite Zle_Qle in H. change (inject_Z 12) with 12%Q in H. lra.
  - left. split; assumption.
Qed.

Lemma monthIndexOf_range (v : Q) :
  (0 <= v <= 360)%Q -> 0 <= monthIndexOf v <= 11.
Proof.
  intros [Hlo Hhi]. unfold monthIndexOf, DEGREES_PER_MONTH, MONTHS_IN_YEAR.
  pose proof (floor_div30 v) as [H1 H2].
  destruct (Z.leb_spec 12 (Math_floor (v / 30))) as [H|H]; [lia|].
  split; [|lia].
  assert (-1 < Math_floor (v / 30)); [|lia].
  rewrite Zlt_Qlt. change (inject_Z (-1)) with (-1)%Q. lra.
Qed.

Lemma monthAt_in_bounds (cal : list Month) (i : Z) :
  0 <= i < Z.of_nat (length cal) -> is_Some (monthAt cal i).
Proof.
  intros H. unfold monthAt.
  destruct (Z.leb_spec 0 i); [|lia].
  apply lookup_lt_is_Some. lia.
Qed.

(** C10.  For every value in the closed interval [0, 360], 360 included,
    the month index after the wrap correction lies in [0, 11] and the access
    into a calendar of twelve months is in bounds; 360 itself goes to
    month 0. *)
Theorem month_index_in_bounds (v : Q) (cal : list Month) :
  (0 <= v <= 360)%Q -> length cal = 12%nat ->
  0 <= monthIndexOf v <= 11 /\
  is_Some (monthAt cal (monthIndexOf v)) /\
  ((v == 360)%Q -> monthIndexOf v = 0).
Proof.
  intros Hv Hlen. pose proof (monthIndexOf_range v Hv) as Hr.
  split; [exact Hr|]. split.
  - apply monthAt_in_bounds. rewrite Hlen. lia.
  - intros E. destruct (monthIndexOf_bucket v) as [[_ H]|[H _]]; [|exact H].
    assert (11 < monthIndexOf v); [|lia].
    rewrite Zlt_Qlt. change (inject_Z 11) with 11%Q. lra.
Qed.

Lemma month_index_in_bounds_witness :
  (0 <= getDegree (359999 # 1000) 0 <= 360)%Q /\
  length emptyCalendar = 12%nat /\
  monthIndexOf (getDegree (359999 # 1000) 0) = 0.
Proof.
  assert (0 <= getDegree (359999 # 1000) 0 <= 360)%Q as Hv
    by (split; vm_compute; discriminate).
  assert (length emptyCalendar = 12%nat) as Hlen by reflexivity.
  split; [exact Hv|]. split; [exact Hlen|].
  apply (month_index_in_bounds _ _ Hv Hlen). reflexivity.
Defined.

Lemma Qle_bool_false (x y : Q) : Qle_bool x y = false -> (y < x)%Q.
Proof.
  intros H. apply Qnot_le_lt. intros Hle. apply Qle_bool_iff in Hle. congruence.
Qed.

Ltac qbool :=
  repeat match goal with
    | H : Qle_bool _ _ = true |- _ => apply Qle_bool_iff in H
    | H : Qle_bool _ _ = false |- _ => apply Qle_bool_false in H
    | H : Qltb _ _ = true |- _ => apply Qltb_lt in H
    | H : Qltb _ _ = false |- _ => apply Qltb_ge in H
    end.

Lemma day_filter_iff (SolarStartDegree SolarEndDegree T : Q) :
  degreeRangeCoversBirthTarget SolarStartDegree SolarEndDegree T = true <->
  ((SolarStartDegree <= SolarEndDegree ->
    SolarStartDegree <= T /\ T <= SolarEndDegree) /\
   (SolarEndDegree < SolarStartDegree ->
    SolarStartDegree <= T \/ T <= SolarEndDegree))%Q.
Proof.
  unfold degreeRangeCoversBirthTarget.
  destruct (Qle_bool SolarStartDegree SolarEndDegree) eqn:Ese;
    destruct (Qle_bool SolarStartDegree T) eqn:E1;
    destruct (Qle_bool T SolarEndDegree) eqn:E2; simpl; qbool;
    (split;
     [ intros Hb; try discriminate Hb;
       split; intros; try split; try lra; ((left; lra) || (right; lra))
     | intros [H1 H2]; try reflexivity; exfalso;
       first [ specialize (H1 ltac:(lra)); destruct H1; lra
             | specialize (H2 ltac:(lra)); destruct H2; lra ] ]).
Qed.

(** ** The cache is transparent *)

Section Memo.
Variable eph : Ephemeris.

Lemma cacheOk_empty : cacheOk eph ∅.
Proof. intros t v H. rewrite lookup_empty in H. discriminate. Qed.

Lemma transparent_ret {A} (a : A) : transparent eph (ret a).
Proof. intros c Hc. split; [reflexivity | exact Hc]. Qed.

Lemma transparent_throw {A} (e : JsError) : transparent eph (@throw A e).
Proof. intros c Hc. split; [reflexivity | exact Hc]. Qed.

Lemma transparent_bind {A B} (m : M A) (f : A -> M B) :
  transparent eph m -> (forall a, transparent eph (f a)) ->
  transparent eph (bind m f).
Proof.
  intros Hm Hf c Hc.
  destruct (Hm c Hc) as [Hv Hc1].
  destruct (Hm ∅ cacheOk_empty) as [_ Hc0].
  unfold valueOf, bind in *.
  destruct (m c) as [r c1]; destruct (m ∅) as [r0 c0]; cbn [fst snd] in *. subst r0.
  destruct r as [a|e]; cbn [fst snd].
  - destruct (Hf a c1 Hc1) as [H1 H2]. destruct (Hf a c0 Hc0) as [H3 _].
    split; [congruence | exact H2].
  - split; [reflexivity | exact Hc1].
Qed.

Lemma getHeliocentricLongitude_run (t : Z) (c : gmap Z Q) :
  cacheOk eph c ->
  fst (getHeliocentricLongitude eph t c) = Ok (Uncached.getHeliocentricLongitude eph t) /\
  cacheOk eph (snd (getHeliocentricLongitude eph t c)).
Proof.
  intros Hc. unfold getHeliocentricLongitude.
  destruct (c !! t) as [v|] eqn:E; cbn [fst snd].
  - split; [f_equal; apply (Hc t v E) | exact Hc].
  - split; [reflexivity|].
    intros t' v'. rewrite lookup_insert. case_decide.
    + intros [= <-]. subst. reflexivity.
    + apply Hc.
Qed.

Lemma transparent_getHeliocentricLongitude (t : Z) :
  transparent eph (getHeliocentricLongitude eph t).
Proof.
  intros c Hc. destruct (getHeliocentricLongitude_run t c Hc) as [H1 H2].
  split; [|exact H2]. rewrite H1. unfold valueOf.
  symmetry. apply getHeliocentricLongitude_run, cacheOk_empty.
Qed.

Lemma valueOf_getHeliocentricLongitude (t : Z) :
  valueOf (getHeliocentricLongitude eph t) = Ok (Uncached.getHeliocentricLongitude eph t).
Proof. apply getHeliocentricLongitude_run, cacheOk_empty. Qed.

(** Running a transparent computation from a consistent cache. *)
Lemma transparent_run {A} (m : M A) (c : gmap Z Q) :
  transparent eph m -> cacheOk eph c ->
  exists c', m c = (valueOf m, c') /\ cacheOk eph c'.
Proof.
  intros Hm Hc. destruct (Hm c Hc) as [H1 H2].
  exists (snd (m c)). split; [|exact H2].
  rewrite <- H1. destruct (m c); reflexivity.
Qed.

Lemma noThrow_ret {A} (a : A) : noThrow (ret a).
Proof. intros c. exists a. reflexivity. Qed.

Lemma noThrow_bind {A B} (m : M A) (f : A -> M B) :
  noThrow m -> (forall a, noThrow (f a)) -> noThrow (bind m f).
Proof.
  intros Hm Hf c. unfold bind. destruct (Hm c) as [a Ha].
  destruct (m c) as [r c1]; cbn in Ha; subst r. apply Hf.
Qed.

Lemma noThrow_getHeliocentricLongitude (t : Z) :
  noThrow (getHeliocentricLongitude eph t).
Proof.
  intros c. unfold getHeliocentricLongitude.
  destruct (c !! t); eexists; reflexivity.
Qed.

Section Search.
Variables sel T : Q.

Lemma transparent_binarySearch (fuel : nat) (Ds De : Q) (low high : Z) :
  transparent eph (binarySearch eph sel T fuel Ds De low high).
Proof.
  revert low high. induction fuel as [|fuel IH]; intros low high; cbn [binarySearch].
  - apply transparent_ret.
  - destruct (low <=? high); [|apply transparent_ret].
    apply transparent_bind; [apply transparent_getHeliocentricLongitude|].
    intros lon.
    repeat match goal with
           | |- transparent _ (if ?b then _ else _) => destruct b
           end; auto using transparent_ret.
Qed.

Lemma binarySearch_no_throw (fuel : nat) (Ds De : Q) (low high : Z) :
  noThrow (binarySearch eph sel T fuel Ds De low high).
Proof.
  revert low high. induction fuel as [|fuel IH]; intros low high; cbn [binarySearch].
  - apply noThrow_ret.
  - destruct (low <=? high); [|apply noThrow_ret].
    apply noThrow_bind; [apply noThrow_getHeliocentricLongitude|].
    intros lon.
    repeat match goal with
           | |- noThrow (if ?b then _ else _) => destruct b
           end; auto using noThrow_ret.
Qed.

Lemma transparent_searchDay (di : DayInfo) :
  transparent eph (searchDay eph sel T di).
Proof.
  unfold searchDay.
  apply transparent_bind; [apply transparent_getHeliocentricLongitude|]. intros l1.
  apply transparent_bind; [apply transparent_getHeliocentricLongitude|]. intros l2.
  destruct (degreeRangeCoversBirthTarget _ _ _);
    [apply transparent_binarySearch | apply transparent_ret].
Qed.

Lemma searchDay_no_throw (di : DayInfo) :
  noThrow (searchDay eph sel T di).
Proof.
  unfold searchDay.
  apply noThrow_bind; [apply noThrow_getHeliocentricLongitude|]. intros l1.
  apply noThrow_bind; [apply noThrow_getHeliocentricLongitude|]. intros l2.
  destruct (degreeRangeCoversBirthTarget _ _ _);
    [apply binarySearch_no_throw | apply noThrow_ret].
Qed.
End Search.
End Memo.

(** ** Civil days *)

Lemma isBefore_day_iff (a b : Z) :
  isBefore_day a b = true <-> utcDay a < utcDay b.
Proof.
  unfold isBefore_day, utcDay, MILLISECONDS_PER_DAY. rewrite Z.ltb_lt.
  pose proof (Z.div_mod b 86400000 ltac:(lia)) as Hb.
  pose proof (Z.mod_pos_bound b 86400000 ltac:(lia)) as Hr.
  split; intros H; nia.
Qed.

Lemma utcDay_dateOfDay (events : Events) (k : nat) :
  utcDay (dateOfDay events k) = utcDay (SpringEquinox events) + Z.of_nat k.
Proof.
  unfold dateOfDay, utcDay, MILLISECONDS_PER_DAY. apply Z.div_add. lia.
Qed.

Lemma dateOfDay_S (events : Events) (k : nat) :
  dateOfDay events k + MILLISECONDS_PER_DAY = dateOfDay events (S k).
Proof. unfold dateOfDay. lia. Qed.

Lemma isBefore_day_dateOfDay (events : Events) (k : nat) :
  isBefore_day (dateOfDay events k) (SpringEquinox2 events) = true <->
  (k < daysToSweep events)%nat.
Proof.
  rewrite isBefore_day_iff, utcDay_dateOfDay. unfold daysToSweep. lia.
Qed.

(** ** Months *)

Lemma allDays_insert (cal : list Month) (i : nat) (month : Month) (d : Day) :
  cal !! i = Some month ->
  Permutation
    (allDays (<[i := mkMonth (MonthNo month) (Name month) (TotalDays month)
                             (Days month ++ [d])]> cal))
    (allDays cal ++ [d]).
Proof.
  intros H. unfold allDays.
  pose proof (lookup_lt_Some _ _ _ H) as Hlt.
  rewrite insert_take_drop by exact Hlt.
  rewrite <- (take_drop_middle cal i month H) at 3.
  rewrite !map_app, !concat_app. cbn [map concat Days].
  rewrite <- !app_assoc.
  do 2 apply Permutation_app_head.
  apply Permutation_app_comm.
Qed.

Lemma monthAt_lookup (cal : list Month) (i : Z) (month : Month) :
  monthAt cal i = Some month -> cal !! Z.to_nat i = Some month.
Proof.
  unfold monthAt. destruct (0 <=? i); [tauto | discriminate].
Qed.

Lemma bind_run {A B} (m : M A) (f : A -> M B) (c c1 : gmap Z Q) (a : A) :
  m c = (Ok a, c1) -> bind m f c = f a c1.
Proof. intros H. unfold bind. rewrite H. reflexivity. Qed.

Lemma uncached_range (eph : Ephemeris) (t : Z) :
  angleContract eph ->
  (0 <= Uncached.getHeliocentricLongitude eph t < 360)%Q.
Proof.
  intros H. unfold Uncached.getHeliocentricLongitude.
  rewrite js_rem_nonneg; [apply Qmod_range|].
  destruct (H t). lra.
Qed.

(** ** The day loop *)

Section SweepProofs.
Variable eph : Ephemeris.
Variable events : Events.
Variable observer : Observer.
Variables sel T : Q.
Hypothesis Hangle : angleContract eph.
Hypothesis Hsel : (sel <= 360)%Q.

Lemma noonDegree_range (k : nat) :
  (0 <= noonDegree eph events observer sel k <= 360)%Q.
Proof.
  unfold noonDegree.
  match goal with |- context [Uncached.getHeliocentricLongitude eph ?t] =>
    pose proof (uncached_range eph t Hangle) as [H1 H2] end.
  apply getDegree_range. lra.
Qed.

Lemma searchDay_run (k : nat) (c : gmap Z Q) :
  cacheOk eph c ->
  exists c',
    searchDay eph sel T (getDayInfo eph observer (dateOfDay events k)) c
    = (Ok (dayMatch eph events observer sel T k), c') /\ cacheOk eph c'.
Proof.
  intros Hc.
  destruct (transparent_run eph _ c
              (transparent_searchDay eph sel T
                 (getDayInfo eph observer (dateOfDay events k))) Hc)
    as (c' & Hrun & Hc').
  exists c'. split; [|exact Hc'].
  rewrite Hrun. f_equal. unfold dayMatch.
  destruct (searchDay_no_throw eph sel T
              (getDayInfo eph observer (dateOfDay events k)) ∅) as [r Hr].
  unfold valueOf. rewrite Hr. reflexivity.
Qed.

(** What one iteration computes, from a consistent cache. *)
Lemma processDay_result (k : nat) (st : SweepState) (c : gmap Z Q) :
  cacheOk eph c -> currentDate st = dateOfDay events k ->
  length (newCalendar st) = 12%nat ->
  exists month c',
    newCalendar st !! Z.to_nat (monthIndexOf (noonDegree eph events observer sel k))
    = Some month /\
    cacheOk eph c' /\
    processDay eph events observer sel T st c =
    (Ok (mkSweep
           (<[Z.to_nat (monthIndexOf (noonDegree eph events observer sel k)) :=
                mkMonth (MonthNo month) (Name month) (TotalDays month)
                  (Days month ++
                   [mkDay (Z.of_nat (length (Days month)) + 1)
                          (noonUtc (dateOfDay events k))
                          (di_SolarStart (getDayInfo eph observer (dateOfDay events k)))
                          (di_SolarNoon (getDayInfo eph observer (dateOfDay events k)))
                          (di_SolarEnd (getDayInfo eph observer (dateOfDay events k)))
                          (di_MoonPhase (getDayInfo eph observer (dateOfDay events k)))
                          (di_Delta (getDayInfo eph observer (dateOfDay events k)))
                          (noonDegree eph events observer sel k)
                          (eventsOfDay events
                             match dayMatch eph events observer sel T k with
                             | Some m => m
                             | None => finalFoundBirthMoment st
                             end
                             (dateOfDay events k))])]>
              (newCalendar st))
           (dateOfDay events k + MILLISECONDS_PER_DAY)
           match dayMatch eph events observer sel T k with
           | Some m => m
           | None => finalFoundBirthMoment st
           end),
     c').
Proof.
  intros Hc Hdate Hlen.
  unfold processDay. rewrite Hdate.
  destruct (searchDay_run k c Hc) as (c1 & Hs & Hc1).
  rewrite (bind_run _ _ _ _ _ Hs).
  pose proof (getHeliocentricLongitude_run eph
    (di_SolarNoon (getDayInfo eph observer (dateOfDay events k))) c1 Hc1) as [Hl Hc2].
  destruct (getHeliocentricLongitude eph _ c1) as [r c2] eqn:El.
  cbn [fst snd] in Hl, Hc2. subst r.
  rewrite (bind_run _ _ _ _ _ El).
  fold (noonDegree eph events observer sel k).
  pose proof (monthIndexOf_range _ (noonDegree_range k)) as Hi.
  assert (is_Some (monthAt (newCalendar st)
                           (monthIndexOf (noonDegree eph events observer sel k))))
    as [month Hm].
  { apply monthAt_in_bounds. rewrite Hlen. split; [apply Hi|].
    apply Z.le_lt_trans with 11; [apply Hi | reflexivity]. }
  rewrite Hm. exists month, c2. split; [|split; [exact Hc2 | reflexivity]].
  exact (monthAt_lookup _ _ _ Hm).
Qed.

Lemma processDay_run (k : nat) (st : SweepState) (c : gmap Z Q) :
  cacheOk eph c -> sweepInv eph events observer sel T k st ->
  exists st' c',
    processDay eph events observer sel T st c = (Ok st', c') /\
    cacheOk eph c' /\ sweepInv eph events observer sel T (S k) st'.
Proof.
  intros Hc (Hdate & Hfound & Hlen & Hperm & Hdays).
  destruct (processDay_result k st c Hc Hdate Hlen) as (month & c' & Hm & Hc' & Hrun).
  pose proof (monthIndexOf_range _ (noonDegree_range k)) as Hi.
  eexists. exists c'. split; [exact Hrun|]. split; [exact Hc'|].
  assert (foundAfter eph events observer sel T (S k) =
          match dayMatch eph events observer sel T k with
          | Some m => m
          | None => finalFoundBirthMoment st
          end) as Hf.
  { cbn [foundAfter]. rewrite Hfound. reflexivity. }
  rewrite <- Hf.
  unfold sweepInv. cbn [currentDate finalFoundBirthMoment newCalendar].
  split; [apply dateOfDay_S|]. split; [reflexivity|].
  split; [rewrite length_insert; exact Hlen|]. split.
  - rewrite (allDays_insert _ _ _ _ Hm). rewrite map_app, seq_S, map_app.
    apply Permutation_app; [exact Hperm | reflexivity].
  - intros i month0 d Hlook Hin.
    destruct (decide (i = Z.to_nat (monthIndexOf (noonDegree eph events observer sel k))))
      as [->|Hne].
    + rewrite list_lookup_insert_eq in Hlook by (apply lookup_lt_Some in Hm; exact Hm).
      injection Hlook as <-. cbn [Days] in Hin.
      apply elem_of_app in Hin as [Hin|Hin].
      * destruct (Hdays _ _ _ Hm Hin) as (j & Hj & Hrec & Hidx).
        exists j. split; [lia|]. split; assumption.
      * apply list_elem_of_singleton in Hin. subst d.
        exists k. split; [lia|]. split.
        -- repeat split.
        -- cbn [SolarDegree]. rewrite Z2Nat.id; [reflexivity | apply Hi].
    + rewrite list_lookup_insert_ne in Hlook by congruence.
      destruct (Hdays _ _ _ Hlook Hin) as (j & Hj & Hrec & Hidx).
      exists j. split; [lia|]. split; assumption.
Qed.

Lemma sweep_run (fuel k : nat) (st : SweepState) (c : gmap Z Q) :
  cacheOk eph c -> sweepInv eph events observer sel T k st ->
  (daysToSweep events <= k + fuel)%nat -> (k <= daysToSweep events)%nat ->
  exists st' c',
    sweep eph events observer sel T fuel st c = (Ok st', c') /\
    cacheOk eph c' /\
    sweepInv eph events observer sel T (daysToSweep events) st'.
Proof.
  revert k st c. induction fuel as [|fuel IH]; intros k st c Hc Hinv Hfuel Hk.
  - assert (k = daysToSweep events) as -> by lia.
    cbn [sweep]. destruct Hinv as (Hdate & Hrest).
    destruct (isBefore_day (currentDate st) (SpringEquinox2 events)) eqn:E.
    + rewrite Hdate in E. apply isBefore_day_dateOfDay in E. lia.
    + exists st, c. split; [reflexivity|]. split; [exact Hc|]. split; assumption.
  - cbn [sweep].
    destruct (isBefore_day (currentDate st) (SpringEquinox2 events)) eqn:E.
    + destruct (processDay_run k st c Hc Hinv) as (st1 & c1 & Hrun & Hc1 & Hinv1).
      rewrite (bind_run _ _ _ _ _ Hrun).
      destruct Hinv as (Hdate & _). rewrite Hdate in E.
      apply isBefore_day_dateOfDay in E.
      apply (IH (S k)); [assumption | assumption | lia | lia].
    + assert (k = daysToSweep events) as ->.
      { destruct Hinv as (Hdate & _). rewrite Hdate in E.
        destruct (lt_dec k (daysToSweep events)) as [Hlt|]; [|lia].
        apply isBefore_day_dateOfDay in Hlt. congruence. }
      exists st, c. split; [reflexivity|]. split; assumption.
Qed.
End SweepProofs.

(** ** The pass over the year *)

Section YearProofs.
Variable eph : Ephemeris.
Variable civ : CivilTime.
Hypothesis Hangle : angleContract eph.

Lemma getBirthDegree_run (birthDate : Z) (c : gmap Z Q) :
  cacheOk eph c ->
  exists c',
    getBirthDegree eph civ birthDate c
    = (Ok (Uncached.getBirthDegree eph civ birthDate), c') /\ cacheOk eph c'.
Proof.
  intros Hc. unfold getBirthDegree, Uncached.getBirthDegree.
  destruct (birthDate <? mar_equinox (Seasons eph (utcYear civ birthDate))).
  all: match goal with |- context [bind (getHeliocentricLongitude eph ?t) _ _] =>
         pose proof (getHeliocentricLongitude_run eph t c Hc) as [H1 Hc1];
         destruct (getHeliocentricLongitude eph t c) as [r1 c1] eqn:E1;
         cbn [fst snd] in H1, Hc1; subst r1;
         rewrite (bind_run _ _ _ _ _ E1)
       end.
  all: pose proof (getHeliocentricLongitude_run eph birthDate c1 Hc1) as [H2 Hc2];
       destruct (getHeliocentricLongitude eph birthDate c1) as [r2 c2] eqn:E2;
       cbn [fst snd] in H2, Hc2; subst r2;
       rewrite (bind_run _ _ _ _ _ E2);
       exists c2; split; [reflexivity | exact Hc2].
Qed.

Lemma sweepInv_initial (events : Events) (observer : Observer) (sel T : Q) :
  sweepInv eph events observer sel T 0
           (mkSweep emptyCalendar (SpringEquinox events) (Birth events)).
Proof.
  unfold sweepInv. cbn [currentDate finalFoundBirthMoment newCalendar foundAfter seq map].
  split; [unfold dateOfDay; lia|]. split; [reflexivity|]. split; [reflexivity|].
  split; [reflexivity|].
  intros i month d Hlook Hin. exfalso.
  assert (Days month = []) as Hd.
  { unfold emptyCalendar in Hlook. rewrite list_lookup_fmap in Hlook.
    destruct (_ !! i); [|discriminate]. injection Hlook as <-. reflexivity. }
  rewrite Hd in Hin. inversion Hin.
Qed.

(** The pass over the days runs to its end and establishes the loop
    invariant for the whole year. *)
Lemma sweepYear_run (events : Events) (observer : Observer) (c : gmap Z Q) :
  cacheOk eph c ->
  exists st c',
    sweepYear eph civ events observer c = (Ok st, c') /\
    cacheOk eph c' /\
    sweepInv eph events observer
             (Uncached.getHeliocentricLongitude eph (SpringEquinox events))
             (Uncached.getBirthDegree eph civ (Birth events))
             (daysToSweep events) st.
Proof.
  intros Hc. unfold sweepYear.
  pose proof (getHeliocentricLongitude_run eph (SpringEquinox events) c Hc) as [H1 Hc1].
  destruct (getHeliocentricLongitude eph (SpringEquinox events) c) as [r1 c1] eqn:E1.
  cbn [fst snd] in H1, Hc1. subst r1. rewrite (bind_run _ _ _ _ _ E1).
  destruct (getBirthDegree_run (Birth events) c1 Hc1) as (c2 & E2 & Hc2).
  rewrite (bind_run _ _ _ _ _ E2).
  apply (sweep_run eph events observer _ _ Hangle) with (k := 0%nat).
  - destruct (uncached_range eph (SpringEquinox events) Hangle). lra.
  - exact Hc2.
  - apply sweepInv_initial.
  - lia.
  - lia.
Qed.

Lemma generateCalendarYear_run (events : Events) (observer : Observer) (c : gmap Z Q) :
  cacheOk eph c ->
  exists st c',
    generateCalendarYear eph civ events observer c
    = (Ok (map finalizeMonth (newCalendar st)), c') /\
    cacheOk eph c' /\
    sweepInv eph events observer
             (Uncached.getHeliocentricLongitude eph (SpringEquinox events))
             (Uncached.getBirthDegree eph civ (Birth events))
             (daysToSweep events) st.
Proof.
  intros Hc. destruct (sweepYear_run events observer c Hc) as (st & c' & Hrun & Hc' & Hinv).
  exists st, c'. split; [|split; assumption].
  unfold generateCalendarYear. rewrite (bind_run _ _ _ _ _ Hrun). reflexivity.
Qed.
End YearProofs.

Lemma allDays_finalize (cal : list Month) :
  allDays (map finalizeMonth cal) = allDays cal.
Proof.
  unfold allDays. rewrite map_map. reflexivity.
Qed.

Lemma sumTotalDays_finalize (cal : list Month) :
  sumTotalDays (map finalizeMonth cal) = Z.of_nat (length (allDays cal)).
Proof.
  unfold sumTotalDays, allDays. induction cal as [|m cal IH]; [reflexivity|].
  cbn [map foldr concat finalizeMonth TotalDays]. rewrite length_app, IH. lia.
Qed.

Lemma lookup_finalize (cal : list Month) (i : nat) (month : Month) :
  map finalizeMonth cal !! i = Some month ->
  exists m0, cal !! i = Some m0 /\ month = finalizeMonth m0.
Proof.
  intros H. change (map finalizeMonth cal) with (finalizeMonth <$> cal) in H.
  rewrite list_lookup_fmap in H.
  destruct (cal !! i) as [m0|]; [|discriminate].
  exists m0. split; [reflexivity|]. injection H as <-. reflexivity.
Qed.

(** ** The claims on a generated year *)

Lemma foundAfter_no_match (eph : Ephemeris) (events : Events) (observer : Observer)
      (sel T : Q) (n : nat) :
  (forall k, (k < n)%nat -> dayMatch eph events observer sel T k = None) ->
  foundAfter eph events observer sel T n = Birth events.
Proof.
  induction n as [|n IH]; intros H; [reflexivity|].
  cbn [foundAfter]. rewrite (H n) by lia. apply IH. intros k Hk. apply H. lia.
Qed.

Lemma map_rebuild_event (l : list CalEvent) :
  map (fun event => mkCalEvent (ev_name event) (ev_description event) (ev_date event)) l = l.
Proof.
  induction l as [|[n d t] l IH]; [reflexivity|]. cbn [map ev_name ev_description ev_date].
  rewrite IH. reflexivity.
Qed.

Lemma astronomical_not_birth (events : Events) (P : CalEvent -> Prop)
      `{forall e, Decision (P e)} :
  existsb (fun e => String.eqb (ev_name e) "BirthOrbit")
          (filter P (equinoxSolsticeEvents events)) = false.
Proof.
  unfold equinoxSolsticeEvents.
  rewrite !filter_cons, filter_nil.
  repeat case_decide; reflexivity.
Qed.

Lemma eventsOfDay_birth (events : Events) (found current : Z) :
  utcDay found = utcDay current ->
  eventsOfDay events found current = [BirthOrbit found].
Proof.
  intros H. unfold eventsOfDay, sameUtcDate.
  rewrite (proj2 (Z.eqb_eq _ _) H). reflexivity.
Qed.

Lemma eventsOfDay_other (events : Events) (found current : Z) :
  utcDay found <> utcDay current ->
  eventsOfDay events found current =
  filter (fun e => utcDay (ev_date e) = utcDay current) (equinoxSolsticeEvents events).
Proof.
  intros H. unfold eventsOfDay, sameUtcDate.
  rewrite (proj2 (Z.eqb_neq _ _) H). rewrite map_rebuild_event.
  apply list_filter_iff. intros e. apply Z.eqb_eq.
Qed.

Lemma noonUtc_dates_NoDup (events : Events) (n : nat) :
  NoDup (map (fun k => noonUtc (dateOfDay events k)) (seq 0 n)).
Proof.
  assert (Inj eq eq (fun k => noonUtc (dateOfDay events k))) as Hinj.
  { intros j1 j2 H. unfold noonUtc in H. rewrite !utcDay_dateOfDay in H.
    unfold MILLISECONDS_PER_DAY in H. lia. }
  change (NoDup ((fun k => noonUtc (dateOfDay events k)) <$> seq 0 n)).
  apply (NoDup_fmap_2 _), NoDup_seq.
Qed.

Section Claims.
Variable eph : Ephemeris.
Variable civ : CivilTime.
Variable events : Events.
Variable observer : Observer.


(** C4.  When the search reports no match on any day of the pass, the
    pass ends, and the moment it holds for the placement of the birthday
    is the birth instant it was given, unchanged. *)
Theorem fallback_is_birth_instant (c : gmap Z Q) :
  angleContract eph -> cacheOk eph c ->
  (forall k, (k < daysToSweep events)%nat ->
             dayMatch eph events observer (referenceLongitude eph events)
             (targetDegree eph civ events) k = None) ->
  exists st c',
    sweepYear eph civ events observer c = (Ok st, c') /\
    finalFoundBirthMoment st = Birth events.
Proof.
  intros Hangle Hc Hnone.
  destruct (sweepYear_run eph civ Hangle events observer c Hc)
    as (st & c' & Hrun & _ & Hinv).
  exists st, c'. split; [exact Hrun|].
  destruct Hinv as (_ & Hfound & _). rewrite Hfound.
  apply (foundAfter_no_match eph events observer _ _ _ Hnone).
Qed.

(** C8.  The year is generated; it has twelve months; every month's
    [TotalDays] is the length of its [Days]; the day records, taken over
    all months, are one for each civil date from the date of the Spring
    Equinox up to, and not including, the date of the next one, no date
    twice; and the sum of [TotalDays] is the number of those dates, 365
    or 366 when the equinoxes are that many civil days apart. *)
Theorem total_days_cover_the_year (c : gmap Z Q) :
  angleContract eph -> cacheOk eph c ->
  exists cal c',
    generateCalendarYear eph civ events observer c = (Ok cal, c') /\
    length cal = 12%nat /\
    Forall (fun month => TotalDays month = Z.of_nat (length (Days month))) cal /\
    Permutation (map Date (allDays cal))
                (map (fun k => noonUtc (dateOfDay events k))
                     (seq 0 (daysToSweep events))) /\
    NoDup (map Date (allDays cal)) /\
    sumTotalDays cal
    = Z.max 0 (utcDay (SpringEquinox2 events) - utcDay (SpringEquinox events)) /\
    (utcDay (SpringEquinox2 events) - utcDay (SpringEquinox events) = 365 \/
     utcDay (SpringEquinox2 events) - utcDay (SpringEquinox events) = 366 ->
     sumTotalDays cal = 365 \/ sumTotalDays cal = 366).
Proof.
  intros Hangle Hc.
  destruct (generateCalendarYear_run eph civ Hangle events observer c Hc)
    as (st & c' & Hrun & _ & Hinv).
  destruct Hinv as (_ & _ & Hlen & Hperm & _).
  eexists _, c'. split; [exact Hrun|]. split; [rewrite length_map; exact Hlen|].
  assert (sumTotalDays (map finalizeMonth (newCalendar st))
          = Z.max 0 (utcDay (SpringEquinox2 events) - utcDay (SpringEquinox events)))
    as Hsum.
  { rewrite sumTotalDays_finalize.
    rewrite <- (length_map Date), (Permutation_length Hperm), length_map, length_seq.
    unfold daysToSweep. lia. }
  split; [|split; [|split; [|split]]].
  - apply Forall_forall. intros month Hin. apply list_elem_of_In in Hin.
    apply in_map_iff in Hin as (m0 & <- & _). reflexivity.
  - rewrite allDays_finalize. exact Hperm.
  - rewrite allDays_finalize, Hperm. apply noonUtc_dates_NoDup.
  - exact Hsum.
  - rewrite Hsum. lia.
Qed.


(** What the loop does for the events of a day: every day record is the
    record of one day [k] of the pass, and its events are decided by the
    moment [finalFoundBirthMoment] holds when day [k] is processed, not
    by the moment the pass ends with.  When that moment falls on the
    day's civil date the events are the [BirthOrbit] event alone;
    otherwise they are the equinox, solstice and apsis events of that
    civil date. *)
Lemma events_follow_the_moment_held_on_the_day (c : gmap Z Q) :
  angleContract eph -> cacheOk eph c ->
  exists cal c',
    generateCalendarYear eph civ events observer c = (Ok cal, c') /\
    forall (month : Month) (d : Day),
      month ∈ cal -> d ∈ Days month ->
      exists k, (k < daysToSweep events)%nat /\
        Date d = noonUtc (dateOfDay events k) /\
        let found := foundAfter eph events observer (referenceLongitude eph events)
             (targetDegree eph civ events) (S k) in
        (utcDay found = utcDay (dateOfDay events k) ->
         DayEvents d = [BirthOrbit found]) /\
        (utcDay found <> utcDay (dateOfDay events k) ->
         DayEvents d = filter (fun e => utcDay (ev_date e) = utcDay (dateOfDay events k))
                              (equinoxSolsticeEvents events) /\
         carriesBirthOrbit d = false).
Proof.
  intros Hangle Hc.
  destruct (generateCalendarYear_run eph civ Hangle events observer c Hc)
    as (st & c' & Hrun & _ & Hinv).
  destruct Hinv as (_ & _ & _ & _ & Hdays).
  eexists _, c'. split; [exact Hrun|].
  intros month d Hmonth Hin.
  apply list_elem_of_lookup in Hmonth as [i Hlook].
  apply lookup_finalize in Hlook as (m0 & Hlook & ->). cbn [finalizeMonth Days] in Hin.
  destruct (Hdays i m0 d Hlook Hin) as (k & Hk & (Hdate & _ & Hev) & _).
  exists k. split; [exact Hk|]. split; [exact Hdate|].
  cbn zeta. split.
  - intros Hsame. rewrite Hev. apply eventsOfDay_birth. exact Hsame.
  - intros Hdiff. rewrite (eventsOfDay_other _ _ _ Hdiff) in Hev.
    split; [exact Hev|]. unfold carriesBirthOrbit. rewrite Hev.
    apply astronomical_not_birth.
Qed.
End Claims.

(** C9.  The result of [generateCalendar] does not depend on the global
    state it is called in: two calls with the same arguments return the
    same calendar, in particular a call and the call that follows it; the
    cache a call leaves is the same too; the result is that of generating
    the year from an empty cache; and the global calendar is the returned
    one. *)
Theorem generateCalendar_ignores_previous_state
        (eph : Ephemeris) (civ : CivilTime) (year : Z)
        (birthDate birthTime timezone : string) (lat lon elev : Q)
        (g1 g2 : Globals) :
  let run := generateCalendar eph civ year birthDate birthTime timezone lat lon elev in
  fst (run g1) = fst (run g2) /\
  fst (run (snd (run g1))) = fst (run g1) /\
  g_cache (snd (run g1)) = g_cache (snd (run g2)) /\
  fst (run g1) =
    fst (generateCalendarYear eph civ
           (eventList eph civ year (momentTz civ birthDate birthTime timezone))
           (mkObserver lat lon elev) ∅) /\
  forall cal, fst (run g1) = Ok cal -> g_calendar (snd (run g1)) = cal.
Proof.
  unfold generateCalendar. cbn zeta.
  destruct (generateCalendarYear eph civ _ _ ∅) as [[cal|e] c'] eqn:E; cbn [fst snd g_cache g_calendar].
  all: repeat split; try reflexivity.
  - intros cal0 [= <-]. reflexivity.
  - intros cal0 [=].
Qed.

(** C5.  With the degrees of the start and of the end of the solar day,
    the filter passes exactly when the target lies between them, if the
    start does not exceed the end, and when it is at or after the start or
    at or before the end, if the day straddles the seam; and the search of
    the day is the binary search when the filter passes and reports no
    match otherwise. *)
Theorem day_filter_decides_the_search
        (eph : Ephemeris) (sel T : Q) (dayInfo : DayInfo) (c : gmap Z Q) :
  cacheOk eph c ->
  let SolarStartDegree :=
    getDegree (Uncached.getHeliocentricLongitude eph (di_SolarStart dayInfo)) sel in
  let SolarEndDegree :=
    getDegree (Uncached.getHeliocentricLongitude eph (di_SolarEnd dayInfo)) sel in
  (degreeRangeCoversBirthTarget SolarStartDegree SolarEndDegree T = true <->
   ((SolarStartDegree <= SolarEndDegree ->
     SolarStartDegree <= T /\ T <= SolarEndDegree) /\
    (SolarEndDegree < SolarStartDegree ->
     SolarStartDegree <= T \/ T <= SolarEndDegree))%Q) /\
  exists c1,
    cacheOk eph c1 /\
    searchDay eph sel T dayInfo c =
    if degreeRangeCoversBirthTarget SolarStartDegree SolarEndDegree T
    then binarySearch eph sel T MAX_BINARY_SEARCH_ITERATIONS
                      SolarStartDegree SolarEndDegree
                      (di_SolarStart dayInfo) (di_SolarEnd dayInfo) c1
    else (Ok None, c1).
Proof.
  intros Hc. cbn zeta. split; [apply day_filter_iff|].
  unfold searchDay.
  pose proof (getHeliocentricLongitude_run eph (di_SolarStart dayInfo) c Hc) as [H1 Hc1].
  destruct (getHeliocentricLongitude eph (di_SolarStart dayInfo) c) as [r1 c1] eqn:E1.
  cbn [fst snd] in H1, Hc1. subst r1. rewrite (bind_run _ _ _ _ _ E1).
  pose proof (getHeliocentricLongitude_run eph (di_SolarEnd dayInfo) c1 Hc1) as [H2 Hc2].
  destruct (getHeliocentricLongitude eph (di_SolarEnd dayInfo) c1) as [r2 c2] eqn:E2.
  cbn [fst snd] in H2, Hc2. subst r2. rewrite (bind_run _ _ _ _ _ E2).
  exists c2. split; [exact Hc2|].
  destruct (degreeRangeCoversBirthTarget _ _ _); reflexivity.
Qed.

(** ** The circular orbit satisfies the contract *)

Lemma Circular_angleContract : angleContract Circular.eph.
Proof.
  intros t. cbn [HelioVectorAngle Circular.eph]. unfold Circular.angle.
  set (m := (t - Circular.equinoxOf 1970) mod Circular.yearMs).
  assert (0 <= m < Circular.yearMs) as Hm
    by (apply Z.mod_pos_bound; reflexivity).
  set (x := (inject_Z (360 * m) / inject_Z Circular.yearMs)%Q).
  assert (0 <= x < 360)%Q as [Hx0 Hx1].
  { subst x. split.
    - apply Qle_shift_div_l; [reflexivity|].
      rewrite Qmult_0_l. change 0%Q with (inject_Z 0). rewrite <- Zle_Qle. lia.
    - apply Qlt_shift_div_r; [reflexivity|].
      change 360%Q with (inject_Z 360). rewrite <- inject_Z_mult, <- Zlt_Qlt. lia. }
  destruct (Qle_bool (180 + x) 180) eqn:E.
  - apply Qle_bool_iff in E. lra.
  - lra.
Qed.

(** ** The search, and the circular orbit *)

Section SearchProofs.
Variable eph : Ephemeris.
Variables sel T : Q.

Lemma binarySearch_match (fuel : nat) (Ds De : Q) (low high : Z) (c : gmap Z Q) (m : Z) :
  cacheOk eph c ->
  fst (binarySearch eph sel T fuel Ds De low high c) = Ok (Some m) ->
  low <= m <= high /\
  (Qabs (getDegree (Uncached.getHeliocentricLongitude eph m) sel - T) < DEGREE_PRECISION)%Q.
Proof.
  revert low high c. induction fuel as [|fuel IH]; intros low high c Hc H;
    cbn [binarySearch] in H; [discriminate|].
  destruct (Z.leb_spec low high) as [Hle|]; [|discriminate].
  pose proof (getHeliocentricLongitude_run eph (low + (high - low) / 2) c Hc) as [H1 Hc1].
  destruct (getHeliocentricLongitude eph (low + (high - low) / 2) c) as [r1 c1] eqn:E1.
  cbn [fst snd] in H1, Hc1. subst r1. rewrite (bind_run _ _ _ _ _ E1) in H.
  assert (low <= low + (high - low) / 2 <= high) as Hmid.
  { pose proof (Z.div_pos (high - low) 2 ltac:(lia) ltac:(lia)).
    pose proof (Z.div_le_upper_bound (high - low) 2 (high - low) ltac:(lia) ltac:(lia)).
    lia. }
  destruct (Qltb (Qabs _) DEGREE_PRECISION) eqn:Ematch.
  - injection H as <-. split; [exact Hmid|]. apply Qltb_lt. exact Ematch.
  - repeat match type of H with
           | context [if ?b then _ else _] => destruct b
           end;
    apply IH in H; try assumption; destruct H as [Hr Hd]; (split; [lia | exact Hd]).
Qed.
End SearchProofs.

Lemma hundredths_match (a b : Z) :
  (Qabs ((a # 100) - (b # 100)) < DEGREE_PRECISION)%Q <-> a = b.
Proof.
  unfold DEGREE_PRECISION. split.
  - intros H. apply Qabs_Qlt_condition in H as [H1 H2].
    unfold Qlt, Qminus, Qplus, Qopp in *. cbn in H1, H2. lia.
  - intros ->. unfold Qlt, Qminus, Qplus, Qopp, Qabs. cbn.
    replace (b * 100 + - b * 100) with 0 by lia. reflexivity.
Qed.

Import Circular Scenario.

(** C3 fails on the code.  For a birth at 00:00 UTC and an observer on the
    Greenwich meridian, the year 2025 on the circular orbit has two day
    records that carry a [BirthOrbit] event: days 73 and 74 after the
    equinox. *)
Theorem birth_orbit_placed_on_two_days :
  resMap birthOrbitDates
         (fst (generateCalendarYear eph civ events2025 greenwich ∅))
  = Ok [firstDay + 73; firstDay + 74].
Proof. vm_compute. reflexivity. Qed.

(** C7 fails on the code, by the defect of C3.  In that year the moment the
    pass ends with, the located moment, is the match of day 74 and falls
    on the civil date of day 74.  The record of that date has the
    [BirthOrbit] event of that moment as its only event, as the claim
    says.  The record of the date before is another day: no equinox,
    solstice or apsis falls on it, so its events should be none, yet it
    carries a [BirthOrbit] event, that of the match of day 73, which the
    pass no longer holds at its end. *)
Theorem birth_orbit_on_a_day_other_than_the_located_one :
  let located := 1747613474999 in
  let earlier := 1747612715625 in
  resMap finalFoundBirthMoment (fst (sweepYear eph civ events2025 greenwich ∅))
  = Ok located /\
  utcDay located = firstDay + 74 /\
  resMap (fun cal => eventsOfDate cal (firstDay + 74))
         (fst (generateCalendarYear eph civ events2025 greenwich ∅))
  = Ok [[BirthOrbit located]] /\
  resMap (fun cal => eventsOfDate cal (firstDay + 73))
         (fst (generateCalendarYear eph civ events2025 greenwich ∅))
  = Ok [[BirthOrbit earlier]] /\
  filter (fun e => utcDay (ev_date e) = firstDay + 73) (equinoxSolsticeEvents events2025)
  = [] /\
  dayMatch eph events2025 greenwich sel2025 target 73 = Some earlier /\
  dayMatch eph events2025 greenwich sel2025 target 74 = Some located.
Proof. vm_compute. repeat split; reflexivity. Qed.

(** C2 fails on the code.  On day 73 of that year the search reports a
    match at a probe whose degree rounded to two decimals equals the
    target, while its degree before rounding is 0.0045 away from it, more
    than the 0.001 the comparison allows; the instant at which the degree
    before rounding is the target lies 396 seconds later. *)
Theorem search_compares_rounded_degree :
  let m := 1747612715625 in
  let crossing := SpringEquinox events2025 + 6361512000 in
  dayMatch eph events2025 greenwich sel2025 target 73 = Some m /\
  Qltb (Qabs (getDegree (Uncached.getHeliocentricLongitude eph m) sel2025 - target))
       DEGREE_PRECISION = true /\
  Qltb (Qabs (unroundedDegree m - target)) DEGREE_PRECISION = false /\
  (Qabs (unroundedDegree m - target) == 1057 # 233600)%Q /\
  (unroundedDegree crossing == target)%Q /\
  crossing - m = 396375.
Proof. vm_compute. repeat split; reflexivity. Qed.

(** Without the clearing, a stale entry changes the year: with a wrong
    longitude cached for the equinox the months get other lengths. *)
Example stale_cache_changes_the_year :
  resMap (map TotalDays)
         (fst (generateCalendarYear eph civ events2025 greenwich
                 {[SpringEquinox events2025 := 0%Q]}))
  <> resMap (map TotalDays)
            (fst (generateCalendarYear eph civ events2025 greenwich ∅)).
Proof. vm_compute. discriminate. Qed.

(** A year in which the search matches once. *)
Example birth_orbit_placed_once :
  resMap birthOrbitDates
         (fst (generateCalendarYear eph civ events2025feb greenwich ∅))
  = Ok [firstDay + 321].
Proof. vm_compute. reflexivity. Qed.

Lemma short_year_no_match (k : nat) :
  (k < daysToSweep shortYear)%nat ->
  dayMatch eph shortYear greenwich
           (referenceLongitude eph shortYear) (targetDegree eph civ shortYear) k = None.
Proof.
  intros H. change (daysToSweep shortYear) with 3%nat in H.
  destruct k as [|[|[|k]]]; [vm_compute; reflexivity .. | lia].
Qed.

Lemma fallback_is_birth_instant_witness :
  exists st c',
    sweepYear eph civ shortYear greenwich ∅ = (Ok st, c') /\
    finalFoundBirthMoment st = birthAtMidnight.
Proof.
  exact (fallback_is_birth_instant eph civ shortYear greenwich ∅
           Circular_angleContract (cacheOk_empty eph) short_year_no_match).
Defined.

Lemma total_days_cover_the_year_witness :
  exists cal c',
    generateCalendarYear eph civ events2025 greenwich ∅ = (Ok cal, c') /\
    sumTotalDays cal = 365.
Proof.
  destruct (total_days_cover_the_year eph civ events2025 greenwich ∅
              Circular_angleContract (cacheOk_empty eph))
    as (cal & c' & Hrun & _ & _ & _ & _ & Hsum & _).
  exists cal, c'. split; [exact Hrun|]. rewrite Hsum. vm_compute. reflexivity.
Defined.


Lemma day_filter_decides_the_search_witness :
  let dayInfo := getDayInfo eph greenwich (dateOfDay events2025 73) in
  degreeRangeCoversBirthTarget
    (getDegree (Uncached.getHeliocentricLongitude eph (di_SolarStart dayInfo)) sel2025)
    (getDegree (Uncached.getHeliocentricLongitude eph (di_SolarEnd dayInfo)) sel2025)
    target = true <->
  ((7163 # 100 <= 7262 # 100 -> 7163 # 100 <= 7262 # 100 /\ 7262 # 100 <= 7262 # 100) /\
   (7262 # 100 < 7163 # 100 -> 7163 # 100 <= 7262 # 100 \/ 7262 # 100 <= 7262 # 100))%Q.
Proof.
  exact (proj1 (day_filter_decides_the_search eph sel2025 target
                  (getDayInfo eph greenwich (dateOfDay events2025 73)) ∅
                  (cacheOk_empty eph))).
Defined.

(** * Further properties *)

(** ** The longitude cache *)

(** X1.  [getHeliocentricLongitude] does not throw and memoises: the value
    it returns is in the cache afterwards under the instant asked for, no
    entry of the cache is removed or changed, and asking again returns the
    same value and leaves the cache as it is; a value that was cached is
    returned as it is and the cache is not touched; one that was not is
    the longitude computed from the position vector. *)
Theorem longitude_is_memoised (eph : Ephemeris) (t : Z) (c : gmap Z Q) :
  exists v,
    fst (getHeliocentricLongitude eph t c) = Ok v /\
    snd (getHeliocentricLongitude eph t c) !! t = Some v /\
    c ⊆ snd (getHeliocentricLongitude eph t c) /\
    getHeliocentricLongitude eph t (snd (getHeliocentricLongitude eph t c))
    = (Ok v, snd (getHeliocentricLongitude eph t c)) /\
    (forall w, c !! t = Some w ->
               v = w /\ snd (getHeliocentricLongitude eph t c) = c) /\
    (c !! t = None -> v = Uncached.getHeliocentricLongitude eph t).
Proof.
  unfold getHeliocentricLongitude at 1 2 3 5 6 7.
  destruct (c !! t) as [w|] eqn:E; cbn [fst snd].
  - exists w. repeat split; try done.
    + unfold getHeliocentricLongitude. rewrite E. reflexivity.
    + congruence.
  - eexists. repeat split.
    + apply lookup_insert_eq.
    + apply insert_subseteq. exact E.
    + unfold getHeliocentricLongitude. rewrite lookup_insert_eq. reflexivity.
    + discriminate.
    + discriminate.
Qed.

Lemma growsBy_ret {A} (a : A) : growsBy 0 (ret a).
Proof. intros c. cbn. split; [reflexivity | lia]. Qed.

Lemma growsBy_throw {A} (e : JsError) : growsBy 0 (@throw A e).
Proof. intros c. cbn. split; [reflexivity | lia]. Qed.

Lemma growsBy_weaken {A} (n n' : nat) (m : M A) :
  (n <= n')%nat -> growsBy n m -> growsBy n' m.
Proof. intros Hn H c. destruct (H c). split; [assumption | lia]. Qed.

Lemma growsBy_bind {A B} (n1 n2 : nat) (m : M A) (f : A -> M B) :
  growsBy n1 m -> (forall a, growsBy n2 (f a)) -> growsBy (n1 + n2) (bind m f).
Proof.
  intros Hm Hf c. unfold bind. destruct (Hm c) as [H1 H2].
  destruct (m c) as [[a|e] c1]; cbn [fst snd] in *.
  - destruct (Hf a c1) as [H3 H4]. split; [etrans; eassumption | lia].
  - split; [assumption | lia].
Qed.

Lemma growsBy_getHeliocentricLongitude (eph : Ephemeris) (t : Z) :
  growsBy 1 (getHeliocentricLongitude eph t).
Proof.
  intros c. unfold getHeliocentricLongitude.
  destruct (c !! t) eqn:E; cbn [fst snd].
  - split; [reflexivity | lia].
  - split; [apply insert_subseteq; exact E|].
    rewrite map_size_insert_None by exact E. lia.
Qed.

Section Growth.
Variable eph : Ephemeris.
Variable civ : CivilTime.

Lemma growsBy_binarySearch (sel T : Q) (fuel : nat) (Ds De : Q) (low high : Z) :
  growsBy fuel (binarySearch eph sel T fuel Ds De low high).
Proof.
  revert low high. induction fuel as [|fuel IH]; intros low high; cbn [binarySearch].
  - apply growsBy_ret.
  - destruct (low <=? high); [|apply (growsBy_weaken 0); [lia | apply growsBy_ret]].
    apply (growsBy_bind 1 fuel); [apply growsBy_getHeliocentricLongitude|].
    intros lon.
    repeat match goal with
           | |- growsBy _ (if ?b then _ else _) => destruct b
           end; auto.
    apply (growsBy_weaken 0); [lia | apply growsBy_ret].
Qed.

Lemma growsBy_searchDay (sel T : Q) (di : DayInfo) :
  growsBy 102 (searchDay eph sel T di).
Proof.
  unfold searchDay.
  apply (growsBy_bind 1 101); [apply growsBy_getHeliocentricLongitude|]. intros l1.
  apply (growsBy_bind 1 100); [apply growsBy_getHeliocentricLongitude|]. intros l2.
  destruct (degreeRangeCoversBirthTarget _ _ _).
  - apply growsBy_binarySearch.
  - apply (growsBy_weaken 0); [lia | apply growsBy_ret].
Qed.

Lemma growsBy_processDay (events : Events) (observer : Observer) (sel T : Q)
      (st : SweepState) :
  growsBy 103 (processDay eph events observer sel T st).
Proof.
  unfold processDay.
  apply (growsBy_bind 102 1); [apply growsBy_searchDay|]. intros r.
  apply (growsBy_bind 1 0); [apply growsBy_getHeliocentricLongitude|]. intros lon.
  destruct (monthAt _ _); [apply growsBy_ret | apply growsBy_throw].
Qed.

Lemma growsBy_sweep (events : Events) (observer : Observer) (sel T : Q)
      (fuel : nat) (st : SweepState) :
  growsBy (103 * fuel) (sweep eph events observer sel T fuel st).
Proof.
  revert st. induction fuel as [|fuel IH]; intros st; cbn [sweep].
  - destruct (isBefore_day _ _); [apply growsBy_throw | apply growsBy_ret].
  - destruct (isBefore_day _ _).
    + apply (growsBy_weaken (103 + 103 * fuel)); [lia|].
      apply growsBy_bind; [apply growsBy_processDay | intros st'; apply IH].
    + apply (growsBy_weaken 0); [lia | apply growsBy_ret].
Qed.

Lemma growsBy_getBirthDegree (birthDate : Z) :
  growsBy 2 (getBirthDegree eph civ birthDate).
Proof.
  unfold getBirthDegree.
  apply (growsBy_bind 1 1).
  - destruct (birthDate <? _); apply growsBy_getHeliocentricLongitude.
  - intros l. apply (growsBy_bind 1 0); [apply growsBy_getHeliocentricLongitude|].
    intros l'. apply growsBy_ret.
Qed.

Lemma growsBy_generateCalendarYear (events : Events) (observer : Observer) :
  growsBy (3 + 103 * daysToSweep events) (generateCalendarYear eph civ events observer).
Proof.
  unfold generateCalendarYear, sweepYear.
  apply (growsBy_weaken (1 + (2 + 103 * daysToSweep events) + 0)); [lia|].
  apply growsBy_bind; [|intros st; apply growsBy_ret].
  apply growsBy_bind; [apply growsBy_getHeliocentricLongitude|]. intros sel.
  apply growsBy_bind; [apply growsBy_getBirthDegree|].
  intros T. apply growsBy_sweep.
Qed.

(** X2.  [generateCalendarYear] removes and changes no entry of the cache,
    and adds at most 3 entries and 103 per day of the pass: the equinox
    and the two instants of the birth degree, and for each day its start,
    its end, at most [MAX_BINARY_SEARCH_ITERATIONS] probes and its noon. *)
Theorem cache_growth_of_a_year (events : Events) (observer : Observer) (c : gmap Z Q) :
  c ⊆ snd (generateCalendarYear eph civ events observer c) /\
  (size (snd (generateCalendarYear eph civ events observer c))
   <= size c + 3 + 103 * daysToSweep events)%nat.
Proof.
  destruct (growsBy_generateCalendarYear events observer c) as [H1 H2].
  split; [exact H1 | lia].
Qed.

(** *** Results do not depend on what is cached *)

Lemma transparent_getBirthDegree (birthDate : Z) :
  transparent eph (getBirthDegree eph civ birthDate).
Proof.
  unfold getBirthDegree.
  apply transparent_bind.
  - destruct (birthDate <? _); apply transparent_getHeliocentricLongitude.
  - intros l. apply transparent_bind; [apply transparent_getHeliocentricLongitude|].
    intros l'. apply transparent_ret.
Qed.

Lemma transparent_processDay (events : Events) (observer : Observer) (sel T : Q)
      (st : SweepState) :
  transparent eph (processDay eph events observer sel T st).
Proof.
  unfold processDay.
  apply transparent_bind; [apply transparent_searchDay|]. intros r.
  apply transparent_bind; [apply transparent_getHeliocentricLongitude|]. intros lon.
  destruct (monthAt _ _); [apply transparent_ret | apply transparent_throw].
Qed.

Lemma transparent_sweep (events : Events) (observer : Observer) (sel T : Q)
      (fuel : nat) (st : SweepState) :
  transparent eph (sweep eph events observer sel T fuel st).
Proof.
  revert st. induction fuel as [|fuel IH]; intros st; cbn [sweep].
  - destruct (isBefore_day _ _); [apply transparent_throw | apply transparent_ret].
  - destruct (isBefore_day _ _); [|apply transparent_ret].
    apply transparent_bind; [apply transparent_processDay | intros st'; apply IH].
Qed.

(** X3.  The cache changes no result: from every cache whose entries are
    the longitudes the ephemeris gives, [generateCalendarYear] returns (or
    throws) what it does from the empty cache, and it leaves a cache whose
    entries are such longitudes. *)
Theorem year_does_not_depend_on_cached_longitudes
        (events : Events) (observer : Observer) (c : gmap Z Q) :
  cacheOk eph c ->
  fst (generateCalendarYear eph civ events observer c)
  = fst (generateCalendarYear eph civ events observer ∅) /\
  cacheOk eph (snd (generateCalendarYear eph civ events observer c)).
Proof.
  intros Hc.
  assert (transparent eph (generateCalendarYear eph civ events observer)) as H.
  { unfold generateCalendarYear, sweepYear.
    apply transparent_bind; [|intros st; apply transparent_ret].
    apply transparent_bind; [apply transparent_getHeliocentricLongitude|]. intros sel.
    apply transparent_bind; [apply transparent_getBirthDegree|]. intros T.
    apply transparent_sweep. }
  exact (H c Hc).
Qed.
End Growth.

(** ** The search of a day *)

Section SearchRefinement.
Variable eph : Ephemeris.
Variables sel T : Q.

Lemma binarySearch_refines (fuel : nat) (Ds De : Q) (low high : Z) (c : gmap Z Q) :
  cacheOk eph c ->
  fst (binarySearch eph sel T fuel Ds De low high c)
  = Ok (UncachedSearch.binarySearch eph sel T fuel Ds De low high) /\
  cacheOk eph (snd (binarySearch eph sel T fuel Ds De low high c)).
Proof.
  revert low high c. induction fuel as [|fuel IH]; intros low high c Hc;
    cbn [binarySearch UncachedSearch.binarySearch].
  - split; [reflexivity | exact Hc].
  - destruct (low <=? high); [|split; [reflexivity | exact Hc]].
    pose proof (getHeliocentricLongitude_run eph (low + (high - low) / 2) c Hc) as [H1 Hc1].
    destruct (getHeliocentricLongitude eph (low + (high - low) / 2) c) as [r1 c1] eqn:E1.
    cbn [fst snd] in H1, Hc1. subst r1. rewrite (bind_run _ _ _ _ _ E1).
    repeat match goal with
           | |- context [if ?b then _ else _] => destruct b
           end; auto.
Qed.

Lemma searchDay_refines (dayInfo : DayInfo) (c : gmap Z Q) :
  cacheOk eph c ->
  fst (searchDay eph sel T dayInfo c) = Ok (UncachedSearch.searchDay eph sel T dayInfo) /\
  cacheOk eph (snd (searchDay eph sel T dayInfo c)).
Proof.
  intros Hc. unfold searchDay, UncachedSearch.searchDay.
  pose proof (getHeliocentricLongitude_run eph (di_SolarStart dayInfo) c Hc) as [H1 Hc1].
  destruct (getHeliocentricLongitude eph (di_SolarStart dayInfo) c) as [r1 c1] eqn:E1.
  cbn [fst snd] in H1, Hc1. subst r1. rewrite (bind_run _ _ _ _ _ E1).
  pose proof (getHeliocentricLongitude_run eph (di_SolarEnd dayInfo) c1 Hc1) as [H2 Hc2].
  destruct (getHeliocentricLongitude eph (di_SolarEnd dayInfo) c1) as [r2 c2] eqn:E2.
  cbn [fst snd] in H2, Hc2. subst r2. rewrite (bind_run _ _ _ _ _ E2).
  destruct (degreeRangeCoversBirthTarget _ _ _).
  - apply binarySearch_refines. exact Hc2.
  - split; [reflexivity | exact Hc2].
Qed.

Lemma uncached_binarySearch_sound (fuel : nat) (Ds De : Q) (low high m : Z) :
  UncachedSearch.binarySearch eph sel T fuel Ds De low high = Some m ->
  low <= m <= high /\ (Qabs (degreeAt eph sel m - T) < DEGREE_PRECISION)%Q.
Proof.
  revert low high. induction fuel as [|fuel IH]; intros low high H;
    cbn [UncachedSearch.binarySearch] in H; [discriminate|].
  destruct (Z.leb_spec low high) as [Hle|]; [|discriminate].
  assert (low <= low + (high - low) / 2 <= high) as Hmid
    by (Z.to_euclidean_division_equations; lia).
  destruct (Qltb (Qabs _) DEGREE_PRECISION) eqn:Ematch.
  - injection H as <-. split; [exact Hmid|]. apply Qltb_lt. exact Ematch.
  - repeat match type of H with
           | context [if ?b then _ else _] => destruct b
           end;
    apply IH in H; destruct H as [Hr Hd]; (split; [lia | exact Hd]).
Qed.

Lemma uncached_binarySearch_converges (fuel : nat) (Ds De : Q) (low high : Z) :
  (Ds <= De)%Q ->
  (forall t1 t2, low <= t1 -> t1 <= t2 -> t2 <= high -> (degreeAt eph sel t1 <= degreeAt eph sel t2)%Q) ->
  (exists t, low <= t <= high /\ (Qabs (degreeAt eph sel t - T) < DEGREE_PRECISION)%Q) ->
  high - low + 1 < 2 ^ Z.of_nat fuel ->
  exists m, UncachedSearch.binarySearch eph sel T fuel Ds De low high = Some m.
Proof.
  intros Hord. assert (Qltb De Ds = false) as Hnowrap by (apply Qltb_ge; exact Hord).
  revert low high. induction fuel as [|fuel IH]; intros low high Hmono (t & Ht & Hmatch) Hsize.
  - change (2 ^ Z.of_nat 0) with 1 in Hsize. lia.
  - cbn [UncachedSearch.binarySearch].
    destruct (Z.leb_spec low high) as [Hle|]; [|lia].
    set (mid := low + (high - low) / 2).
    assert (low <= mid <= high) as Hmid
      by (subst mid; Z.to_euclidean_division_equations; lia).
    rewrite Nat2Z.inj_succ, Z.pow_succ_r in Hsize by lia.
    fold (degreeAt eph sel mid). rewrite Hnowrap. cbn [andb].
    destruct (Qltb (Qabs (degreeAt eph sel mid - T)) DEGREE_PRECISION) eqn:Ematch;
      [eexists; reflexivity|].
    apply Qltb_ge in Ematch. apply Qabs_Qlt_condition in Hmatch as [Hm1 Hm2].
    destruct (Qltb (degreeAt eph sel mid) T) eqn:Elt.
    + apply Qltb_lt in Elt.
      assert (degreeAt eph sel mid - T <= 0)%Q as Hneg by lra.
      rewrite (Qabs_neg _ Hneg) in Ematch.
      assert (mid < t) as Hgt.
      { destruct (Z.lt_ge_cases mid t) as [|Hge]; [assumption|].
        pose proof (Hmono t mid ltac:(lia) Hge ltac:(lia)). lra. }
      apply IH.
      * intros t1 t2 H1 H2 H3. apply Hmono; lia.
      * exists t. split; [lia|]. apply Qabs_Qlt_condition. split; assumption.
      * subst mid. Z.to_euclidean_division_equations. lia.
    + apply Qltb_ge in Elt.
      assert (0 <= degreeAt eph sel mid - T)%Q as Hpos by lra.
      rewrite (Qabs_pos _ Hpos) in Ematch.
      assert (t < mid) as Hlt.
      { destruct (Z.lt_ge_cases t mid) as [|Hge]; [assumption|].
        pose proof (Hmono mid t ltac:(lia) Hge ltac:(lia)). lra. }
      apply IH.
      * intros t1 t2 H1 H2 H3. apply Hmono; lia.
      * exists t. split; [lia|]. apply Qabs_Qlt_condition. split; assumption.
      * subst mid. Z.to_euclidean_division_equations. lia.
Qed.
End SearchRefinement.

Lemma degreeAt_hundredths (eph : Ephemeris) (sel : Q) (t : Z) :
  exists n, degreeAt eph sel t = n # 100.
Proof. eexists. unfold degreeAt, getDegree, parseFloat2. reflexivity. Qed.

Lemma degree_match_is_equality (eph : Ephemeris) (sel : Q) (t n : Z) :
  (Qabs (degreeAt eph sel t - (n # 100)) < DEGREE_PRECISION)%Q <->
  degreeAt eph sel t = n # 100.
Proof.
  destruct (degreeAt_hundredths eph sel t) as [a ->].
  rewrite hundredths_match. split; [intros ->; reflexivity | intros [= ->]; reflexivity].
Qed.

(** X4.  The search of a day reports what the search of the revision
    without the cache reports, which reads every longitude from the
    ephemeris; it does not throw, and leaves the cache's entries the
    longitudes the ephemeris gives. *)
Theorem memoised_search_is_the_uncached_search
        (eph : Ephemeris) (sel T : Q) (dayInfo : DayInfo) (c : gmap Z Q) :
  cacheOk eph c ->
  fst (searchDay eph sel T dayInfo c) = Ok (UncachedSearch.searchDay eph sel T dayInfo) /\
  cacheOk eph (snd (searchDay eph sel T dayInfo c)).
Proof. apply searchDay_refines. Qed.

Lemma uncached_searchDay_sound (eph : Ephemeris) (sel T : Q) (dayInfo : DayInfo) (m : Z) :
  UncachedSearch.searchDay eph sel T dayInfo = Some m ->
  di_SolarStart dayInfo <= m <= di_SolarEnd dayInfo /\
  degreeRangeCoversBirthTarget (degreeAt eph sel (di_SolarStart dayInfo))
                               (degreeAt eph sel (di_SolarEnd dayInfo)) T = true /\
  (Qabs (degreeAt eph sel m - T) < DEGREE_PRECISION)%Q /\
  (forall n, T = n # 100 -> degreeAt eph sel m = T).
Proof.
  intros H. unfold UncachedSearch.searchDay in H.
  fold (degreeAt eph sel (di_SolarStart dayInfo)) in H.
  fold (degreeAt eph sel (di_SolarEnd dayInfo)) in H.
  destruct (degreeRangeCoversBirthTarget _ _ T); [|discriminate].
  apply uncached_binarySearch_sound in H as [Hr Hd].
  split; [exact Hr|]. split; [reflexivity|]. split; [exact Hd|].
  intros n ->. apply degree_match_is_equality. exact Hd.
Qed.

(** X5.  A moment the search of a day reports lies in the solar day, from
    its start to its end; the day passed the filter; the degree of the
    moment, rounded as [getDegree] rounds it, is less than
    [DEGREE_PRECISION] away from the target; and it equals the target
    when the target has two decimals, as a birth degree has. *)
Theorem reported_moment_lies_in_the_day_and_matches
        (eph : Ephemeris) (sel T : Q) (dayInfo : DayInfo) (c : gmap Z Q) (m : Z) :
  cacheOk eph c ->
  fst (searchDay eph sel T dayInfo c) = Ok (Some m) ->
  di_SolarStart dayInfo <= m <= di_SolarEnd dayInfo /\
  degreeRangeCoversBirthTarget (degreeAt eph sel (di_SolarStart dayInfo))
                               (degreeAt eph sel (di_SolarEnd dayInfo)) T = true /\
  (Qabs (degreeAt eph sel m - T) < DEGREE_PRECISION)%Q /\
  (forall n, T = n # 100 -> degreeAt eph sel m = T).
Proof.
  intros Hc H. rewrite (proj1 (searchDay_refines eph sel T dayInfo c Hc)) in H.
  injection H as H. apply uncached_searchDay_sound. exact H.
Qed.

(** X6.  The search finds the target on a day that does not straddle the
    seam: when the degree never decreases from the start of the solar day
    to its end, some instant of the day has the target as its degree, and
    the day has fewer than 2^100 milliseconds, so that
    [MAX_BINARY_SEARCH_ITERATIONS] halvings exhaust it, the search
    reports a moment of the day whose degree is the target. *)
Theorem search_finds_the_target_when_the_degree_never_decreases
        (eph : Ephemeris) (sel : Q) (n : Z) (dayInfo : DayInfo) (c : gmap Z Q) :
  cacheOk eph c ->
  di_SolarEnd dayInfo - di_SolarStart dayInfo + 1 < 2 ^ 100 ->
  (forall t1 t2, di_SolarStart dayInfo <= t1 -> t1 <= t2 -> t2 <= di_SolarEnd dayInfo ->
                 (degreeAt eph sel t1 <= degreeAt eph sel t2)%Q) ->
  (exists t, di_SolarStart dayInfo <= t <= di_SolarEnd dayInfo /\
             degreeAt eph sel t = n # 100) ->
  exists m,
    fst (searchDay eph sel (n # 100) dayInfo c) = Ok (Some m) /\
    di_SolarStart dayInfo <= m <= di_SolarEnd dayInfo /\
    degreeAt eph sel m = n # 100.
Proof.
  intros Hc Hsize Hmono (t & Ht & Hdeg).
  assert (degreeAt eph sel (di_SolarStart dayInfo) <= n # 100)%Q as Hlo
    by (rewrite <- Hdeg; apply Hmono; lia).
  assert (n # 100 <= degreeAt eph sel (di_SolarEnd dayInfo))%Q as Hhi
    by (rewrite <- Hdeg; apply Hmono; lia).
  assert (degreeAt eph sel (di_SolarStart dayInfo)
          <= degreeAt eph sel (di_SolarEnd dayInfo))%Q as Hord
    by (apply Hmono; lia).
  assert (exists m, UncachedSearch.searchDay eph sel (n # 100) dayInfo = Some m) as [m Hm].
  { unfold UncachedSearch.searchDay.
    fold (degreeAt eph sel (di_SolarStart dayInfo)).
    fold (degreeAt eph sel (di_SolarEnd dayInfo)).
    rewrite (proj2 (day_filter_iff _ _ _)).
    - apply uncached_binarySearch_converges; try assumption.
      exists t. split; [exact Ht|]. apply degree_match_is_equality. exact Hdeg.
    - split; [intros _; split; assumption|].
      intros Hwrap. exfalso. apply (Qlt_not_le _ _ Hwrap Hord). }
  exists m. split.
  - rewrite (proj1 (searchDay_refines eph sel _ dayInfo c Hc)), Hm. reflexivity.
  - destruct (uncached_searchDay_sound eph sel _ dayInfo m Hm) as (Hr & _ & _ & Heq).
    split; [exact Hr | exact (Heq n eq_refl)].
Qed.

Lemma reported_moment_lies_in_the_day_and_matches_witness :
  fst (searchDay eph sel2025 target
                 (getDayInfo eph greenwich (dateOfDay events2025 73)) ∅)
  = Ok (Some 1747612715625) /\
  degreeAt eph sel2025 1747612715625 = target.
Proof.
  assert (fst (searchDay eph sel2025 target
                 (getDayInfo eph greenwich (dateOfDay events2025 73)) ∅)
          = Ok (Some 1747612715625)) as Hrun by (vm_compute; reflexivity).
  split; [exact Hrun|].
  destruct (reported_moment_lies_in_the_day_and_matches eph sel2025 target _ ∅ _
              (cacheOk_empty eph) Hrun) as (_ & _ & _ & Heq).
  apply (Heq 7262). vm_compute. reflexivity.
Defined.

(** ** The calls of the generator *)

(** X7.  With an angle as [Math.atan2] returns it and a cache whose entries
    are the longitudes the ephemeris gives, [getHeliocentricLongitude]
    returns the longitude computed from the position vector, whether it
    was cached or not, the cache stays such a cache, and the longitude is
    in [0, 360). *)
Theorem cached_longitude_is_the_computed_longitude
        (eph : Ephemeris) (t : Z) (c : gmap Z Q) :
  angleContract eph -> cacheOk eph c ->
  fst (getHeliocentricLongitude eph t c) = Ok (Uncached.getHeliocentricLongitude eph t) /\
  cacheOk eph (snd (getHeliocentricLongitude eph t c)) /\
  (0 <= Uncached.getHeliocentricLongitude eph t < 360)%Q.
Proof.
  intros Hangle Hc. destruct (getHeliocentricLongitude_run eph t c Hc) as [H1 H2].
  split; [exact H1|]. split; [exact H2|]. apply uncached_range. exact Hangle.
Qed.

(** X8.  [getBirthDegree] returns what the revision without the cache
    returns, it does not throw, and the birth degree is a whole number of
    hundredths from 0.00 to 360.00. *)
Theorem birth_degree_agrees_with_the_uncached_revision
        (eph : Ephemeris) (civ : CivilTime) (birthDate : Z) (c : gmap Z Q) :
  angleContract eph -> cacheOk eph c ->
  fst (getBirthDegree eph civ birthDate c) = Ok (Uncached.getBirthDegree eph civ birthDate) /\
  cacheOk eph (snd (getBirthDegree eph civ birthDate c)) /\
  exists n, Uncached.getBirthDegree eph civ birthDate = n # 100 /\ 0 <= n <= 36000.
Proof.
  intros Hangle Hc.
  destruct (getBirthDegree_run eph civ birthDate c Hc) as (c' & Hrun & Hc').
  rewrite Hrun. cbn [fst snd]. split; [reflexivity|]. split; [exact Hc'|].
  unfold Uncached.getBirthDegree.
  match goal with |- context [getDegree ?h ?r] =>
    assert (0 <= getDegree h r <= 360)%Q as [Hlo Hhi];
    [ apply getDegree_range;
      assert (0 <= h < 360)%Q by (apply uncached_range; exact Hangle);
      assert (0 <= r < 360)%Q
        by (destruct (birthDate <? _); apply uncached_range; exact Hangle);
      lra
    | exists (toFixed2 (js_rem (h - r + DEGREES_IN_CIRCLE) DEGREES_IN_CIRCLE));
      split; [reflexivity|];
      unfold getDegree, parseFloat2, Qle in Hlo, Hhi; cbn in Hlo, Hhi; lia ]
  end.
Qed.

(** X9.  When [generateCalendar] returns a calendar, the calendar has
    twelve months and is the global calendar, the global observer is the
    one built from the coordinates, and the cache holds what this call
    computed and nothing of what it held before: its entries are
    longitudes the ephemeris gives, at most 3 and 103 per day of the
    pass. *)
Theorem returned_calendar_comes_with_a_fresh_cache
        (eph : Ephemeris) (civ : CivilTime) (year : Z)
        (birthDate birthTime timezone : string) (lat lon elev : Q) (g : Globals)
        (cal : list Month) :
  angleContract eph ->
  fst (generateCalendar eph civ year birthDate birthTime timezone lat lon elev g) = Ok cal ->
  length cal = 12%nat /\
  g_calendar (snd (generateCalendar eph civ year birthDate birthTime timezone lat lon elev g))
  = cal /\
  g_observer (snd (generateCalendar eph civ year birthDate birthTime timezone lat lon elev g))
  = Some (mkObserver lat lon elev) /\
  cacheOk eph
    (g_cache (snd (generateCalendar eph civ year birthDate birthTime timezone lat lon elev g)))
  /\
  (size (g_cache (snd (generateCalendar eph civ year birthDate birthTime timezone
                         lat lon elev g)))
   <= 3 + 103 * daysToSweep
                  (eventList eph civ year (momentTz civ birthDate birthTime timezone)))%nat.
Proof.
  intros Hangle. unfold generateCalendar. cbn zeta.
  set (events := eventList eph civ year (momentTz civ birthDate birthTime timezone)).
  destruct (generateCalendarYear_run eph civ Hangle events
              (mkObserver lat lon elev) ∅ (cacheOk_empty eph))
    as (st & c' & Hrun & Hc' & Hinv).
  pose proof (growsBy_generateCalendarYear eph civ events (mkObserver lat lon elev) ∅)
    as [_ Hsize].
  rewrite Hrun in *. cbn [fst snd g_calendar g_observer g_cache] in *.
  intros [= <-]. rewrite map_size_empty in Hsize.
  split; [rewrite length_map; apply Hinv|].
  repeat split; [exact Hc' | lia].
Qed.

Section Probes.
Variable eph : Ephemeris.
Variables sel T : Q.

Lemma getHeliocentricLongitude_keys (t t' : Z) (c : gmap Z Q) :
  is_Some (snd (getHeliocentricLongitude eph t c) !! t') -> is_Some (c !! t') \/ t' = t.
Proof.
  unfold getHeliocentricLongitude. destruct (c !! t) eqn:E; cbn [snd].
  - auto.
  - rewrite lookup_insert. case_decide; [right; congruence | auto].
Qed.

Lemma binarySearch_keys (fuel : nat) (Ds De : Q) (low high t : Z) (c : gmap Z Q) :
  is_Some (snd (binarySearch eph sel T fuel Ds De low high c) !! t) ->
  is_Some (c !! t) \/ low <= t <= high.
Proof.
  revert low high c. induction fuel as [|fuel IH]; intros low high c H;
    cbn [binarySearch] in H; [left; exact H|].
  destruct (Z.leb_spec low high) as [Hle|]; [|left; exact H].
  assert (low <= low + (high - low) / 2 <= high) as Hmid
    by (Z.to_euclidean_division_equations; lia).
  unfold bind in H.
  pose proof (getHeliocentricLongitude_keys (low + (high - low) / 2) t c) as Hk.
  destruct (getHeliocentricLongitude eph (low + (high - low) / 2) c) as [[lon|e] c1];
    cbn [snd] in Hk.
  - assert (is_Some (c1 !! t) -> is_Some (c !! t) \/ low <= t <= high) as Hk'
      by (intros H1; destruct (Hk H1) as [?| ->]; [left; assumption | right; exact Hmid]).
    repeat match type of H with
           | context [if ?b then _ else _] => destruct b
           end;
      try (apply Hk'; exact H);
      apply IH in H; destruct H as [H|H]; try (right; lia); apply Hk'; exact H.
  - destruct (Hk H) as [?| ->]; [left; assumption | right; exact Hmid].
Qed.
End Probes.

(** X10.  The search of a day removes and changes no entry of the cache and
    adds at most 102; every instant it adds is the start or the end of
    the solar day or lies between them. *)
Theorem search_probes_only_the_day
        (eph : Ephemeris) (sel T : Q) (dayInfo : DayInfo) (c : gmap Z Q) :
  c ⊆ snd (searchDay eph sel T dayInfo c) /\
  (size (snd (searchDay eph sel T dayInfo c)) <= size c + 102)%nat /\
  forall t, is_Some (snd (searchDay eph sel T dayInfo c) !! t) ->
            is_Some (c !! t) \/ t = di_SolarStart dayInfo \/ t = di_SolarEnd dayInfo \/
            di_SolarStart dayInfo <= t <= di_SolarEnd dayInfo.
Proof.
  destruct (growsBy_searchDay eph sel T dayInfo c) as [H1 H2].
  split; [exact H1|]. split; [exact H2|].
  intros t. unfold searchDay, bind.
  pose proof (getHeliocentricLongitude_keys eph (di_SolarStart dayInfo) t c) as Hk1.
  destruct (getHeliocentricLongitude eph (di_SolarStart dayInfo) c) as [[l1|e1] c1];
    cbn [snd] in Hk1; [|intros H; destruct (Hk1 H); auto].
  pose proof (getHeliocentricLongitude_keys eph (di_SolarEnd dayInfo) t c1) as Hk2.
  destruct (getHeliocentricLongitude eph (di_SolarEnd dayInfo) c1) as [[l2|e2] c2];
    cbn [snd] in Hk2.
  - assert (is_Some (c2 !! t) ->
            is_Some (c !! t) \/ t = di_SolarStart dayInfo \/ t = di_SolarEnd dayInfo \/
            di_SolarStart dayInfo <= t <= di_SolarEnd dayInfo) as Hk.
    { intros H. destruct (Hk2 H) as [H'|]; [|auto]. destruct (Hk1 H'); auto. }
    destruct (degreeRangeCoversBirthTarget _ _ _); [|exact Hk].
    intros H. apply binarySearch_keys in H as [H|H]; [apply Hk; exact H | auto].
  - intros H. destruct (Hk2 H) as [H'|]; [|auto]. destruct (Hk1 H'); auto.
Qed.

(** ** The shape of a generated year *)

Lemma noonUtc_dateOfDay_lt (events : Events) (q k : nat) :
  (q < k)%nat -> noonUtc (dateOfDay events q) < noonUtc (dateOfDay events k).
Proof.
  intros H. unfold noonUtc. rewrite !utcDay_dateOfDay. unfold MILLISECONDS_PER_DAY. lia.
Qed.

Lemma map_insert_same {B} (f : Month -> B) (cal : list Month) (i : nat) (month month' : Month) :
  cal !! i = Some month -> f month' = f month ->
  map f (<[i := month']> cal) = map f cal.
Proof.
  intros Hl Hf. change (f <$> <[i:=month']> cal = f <$> cal).
  rewrite list_fmap_insert, Hf. apply list_insert_id.
  rewrite list_lookup_fmap, Hl. reflexivity.
Qed.

Section ShapeProofs.
Variable eph : Ephemeris.
Variable events : Events.
Variable observer : Observer.
Variables sel T : Q.
Hypothesis Hangle : angleContract eph.
Hypothesis Hsel : (sel <= 360)%Q.

Lemma shapeInv_initial :
  shapeInv eph events observer 0
           (mkSweep emptyCalendar (SpringEquinox events) (Birth events)).
Proof.
  unfold shapeInv. cbn [newCalendar]. split; [reflexivity|]. split; [reflexivity|].
  intros i month Hl.
  assert (TotalDays month = 0 /\ Days month = []) as [Ht Hd].
  { unfold emptyCalendar in Hl. change (map ?f ?l) with (f <$> l) in Hl.
    rewrite list_lookup_fmap in Hl.
    destruct (_ !! i); [|discriminate]. injection Hl as <-. split; reflexivity. }
  split; [exact Ht|]. rewrite Hd. split.
  - intros j d H. rewrite lookup_nil in H. discriminate.
  - intros j1 j2 d1 d2 _ H. rewrite lookup_nil in H. discriminate.
Qed.

Lemma processDay_shape (k : nat) (st st' : SweepState) (c c' : gmap Z Q) :
  cacheOk eph c -> currentDate st = dateOfDay events k ->
  length (newCalendar st) = 12%nat ->
  shapeInv eph events observer k st ->
  processDay eph events observer sel T st c = (Ok st', c') ->
  shapeInv eph events observer (S k) st'.
Proof.
  intros Hc Hdate Hlen (Hno & Hname & Hmonths) Hrun.
  destruct (processDay_result eph events observer sel T Hangle Hsel k st c Hc Hdate Hlen)
    as (month & c1 & Hm & _ & Hres).
  rewrite Hres in Hrun. injection Hrun as <- _.
  set (i := Z.to_nat (monthIndexOf (noonDegree eph events observer sel k))) in *.
  unfold shapeInv. cbn [newCalendar].
  split; [rewrite (map_insert_same MonthNo _ _ _ _ Hm); [exact Hno | reflexivity]|].
  split; [rewrite (map_insert_same Name _ _ _ _ Hm); [exact Hname | reflexivity]|].
  intros i0 month0 Hl.
  destruct (decide (i0 = i)) as [->|Hne].
  - rewrite list_lookup_insert_eq in Hl by (apply lookup_lt_Some in Hm; exact Hm).
    injection Hl as <-. cbn [TotalDays Days].
    destruct (Hmonths i month Hm) as (Ht & Hnum & Hsorted).
    split; [exact Ht|]. split.
    + intros j d Hj. apply lookup_app_Some in Hj as [Hj|[Hge Hj]].
      * destruct (Hnum j d Hj) as (Hn & q & Hq & Hd).
        split; [exact Hn|]. exists q. split; [lia | exact Hd].
      * apply list_lookup_singleton_Some in Hj as [Hj0 <-].
        cbn [Number]. split; [lia|].
        exists k. split; [lia|]. repeat split.
    + intros j1 j2 d1 d2 Hlt H1 H2.
      apply lookup_app_Some in H2 as [H2|[Hge H2]].
      * assert (Days month !! j1 = Some d1) as H1'.
        { apply lookup_app_Some in H1 as [H1|[Hge1 _]]; [exact H1|].
          apply lookup_lt_Some in H2. lia. }
        exact (Hsorted j1 j2 d1 d2 Hlt H1' H2).
      * apply list_lookup_singleton_Some in H2 as [Hj0 <-]. cbn [Date].
        apply lookup_app_Some in H1 as [H1|[Hge1 H1]].
        -- destruct (Hnum j1 d1 H1) as (_ & q & Hq & (Hd & _)).
           rewrite Hd. apply noonUtc_dateOfDay_lt. exact Hq.
        -- apply lookup_lt_Some in H1. cbn [length] in H1. lia.
  - rewrite list_lookup_insert_ne in Hl by congruence.
    destruct (Hmonths i0 month0 Hl) as (Ht & Hnum & Hsorted).
    split; [exact Ht|]. split; [|exact Hsorted].
    intros j d Hj. destruct (Hnum j d Hj) as (Hn & q & Hq & Hd).
    split; [exact Hn|]. exists q. split; [lia | exact Hd].
Qed.

Lemma sweep_run_shape (fuel k : nat) (st : SweepState) (c : gmap Z Q) :
  cacheOk eph c -> sweepInv eph events observer sel T k st ->
  shapeInv eph events observer k st ->
  (daysToSweep events <= k + fuel)%nat -> (k <= daysToSweep events)%nat ->
  exists st' c',
    sweep eph events observer sel T fuel st c = (Ok st', c') /\
    cacheOk eph c' /\
    sweepInv eph events observer sel T (daysToSweep events) st' /\
    shapeInv eph events observer (daysToSweep events) st'.
Proof.
  revert k st c. induction fuel as [|fuel IH]; intros k st c Hc Hinv Hshape Hfuel Hk.
  - assert (k = daysToSweep events) as -> by lia.
    cbn [sweep]. pose proof Hinv as (Hdate & _).
    destruct (isBefore_day (currentDate st) (SpringEquinox2 events)) eqn:E.
    + rewrite Hdate in E. apply isBefore_day_dateOfDay in E. lia.
    + exists st, c. auto.
  - cbn [sweep]. pose proof Hinv as (Hdate & _ & Hlen & _).
    destruct (isBefore_day (currentDate st) (SpringEquinox2 events)) eqn:E.
    + destruct (processDay_run eph events observer sel T Hangle Hsel k st c Hc Hinv)
        as (st1 & c1 & Hrun & Hc1 & Hinv1).
      pose proof (processDay_shape k st st1 c c1 Hc Hdate Hlen Hshape Hrun) as Hshape1.
      rewrite (bind_run _ _ _ _ _ Hrun).
      rewrite Hdate in E. apply isBefore_day_dateOfDay in E.
      apply (IH (S k)); [assumption | assumption | assumption | lia | lia].
    + assert (k = daysToSweep events) as ->.
      { rewrite Hdate in E.
        destruct (lt_dec k (daysToSweep events)) as [Hlt|]; [|lia].
        apply isBefore_day_dateOfDay in Hlt. congruence. }
      exists st, c. auto.
Qed.
End ShapeProofs.

Lemma sweepYear_run_shape
      (eph : Ephemeris) (civ : CivilTime) (events : Events) (observer : Observer)
      (c : gmap Z Q) :
  angleContract eph -> cacheOk eph c ->
  exists st c',
    sweepYear eph civ events observer c = (Ok st, c') /\
    cacheOk eph c' /\
    sweepInv eph events observer (referenceLongitude eph events)
             (targetDegree eph civ events) (daysToSweep events) st /\
    shapeInv eph events observer (daysToSweep events) st.
Proof.
  intros Hangle Hc. unfold sweepYear.
  pose proof (getHeliocentricLongitude_run eph (SpringEquinox events) c Hc) as [H1 Hc1].
  destruct (getHeliocentricLongitude eph (SpringEquinox events) c) as [r1 c1] eqn:E1.
  cbn [fst snd] in H1, Hc1. subst r1. rewrite (bind_run _ _ _ _ _ E1).
  destruct (getBirthDegree_run eph civ (Birth events) c1 Hc1) as (c2 & E2 & Hc2).
  rewrite (bind_run _ _ _ _ _ E2).
  apply (sweep_run_shape eph events observer _ _ Hangle) with (k := 0%nat).
  - destruct (uncached_range eph (SpringEquinox events) Hangle). lra.
  - exact Hc2.
  - apply sweepInv_initial.
  - apply shapeInv_initial.
  - lia.
  - lia.
Qed.

Lemma generateCalendarYear_run_shape
      (eph : Ephemeris) (civ : CivilTime) (events : Events) (observer : Observer)
      (c : gmap Z Q) :
  angleContract eph -> cacheOk eph c ->
  exists st c',
    generateCalendarYear eph civ events observer c
    = (Ok (map finalizeMonth (newCalendar st)), c') /\
    cacheOk eph c' /\
    sweepInv eph events observer (referenceLongitude eph events)
             (targetDegree eph civ events) (daysToSweep events) st /\
    shapeInv eph events observer (daysToSweep events) st.
Proof.
  intros Hangle Hc.
  destruct (sweepYear_run_shape eph civ events observer c Hangle Hc)
    as (st & c' & Hrun & Hrest).
  exists st, c'. split; [|exact Hrest].
  unfold generateCalendarYear. rewrite (bind_run _ _ _ _ _ Hrun). reflexivity.
Qed.

Section Structure.
Variable eph : Ephemeris.
Variable civ : CivilTime.
Variable events : Events.
Variable observer : Observer.

(** X11.  The months of a generated year are numbered 1 to 12, in this
    order, and carry the names of the [Months] enumeration from Aries to
    Pisces. *)
Theorem months_are_the_zodiac_in_order (c : gmap Z Q) :
  angleContract eph -> cacheOk eph c ->
  exists cal c',
    generateCalendarYear eph civ events observer c = (Ok cal, c') /\
    map MonthNo cal = [1; 2; 3; 4; 5; 6; 7; 8; 9; 10; 11; 12] /\
    map Name cal = ["Aries"; "Taurus"; "Gemini"; "Cancer"; "Leo"; "Virgo"; "Libra";
                    "Scorpio"; "Sagittarius"; "Capricorn"; "Aquarius"; "Pisces"]%string.
Proof.
  intros Hangle Hc.
  destruct (generateCalendarYear_run_shape eph civ events observer c Hangle Hc)
    as (st & c' & Hrun & _ & _ & (Hno & Hname & _)).
  eexists _, c'. split; [exact Hrun|].
  rewrite !map_map. cbn [finalizeMonth MonthNo Name].
  change (fun x : Month => MonthNo x) with MonthNo.
  change (fun x : Month => Name x) with Name.
  rewrite Hno, Hname. split; reflexivity.
Qed.

(** X12.  In every month of a generated year the days are numbered 1, 2,
    3, ... in the order of the array, without a gap. *)
Theorem days_are_numbered_from_one (c : gmap Z Q) :
  angleContract eph -> cacheOk eph c ->
  exists cal c',
    generateCalendarYear eph civ events observer c = (Ok cal, c') /\
    forall (month : Month), month ∈ cal ->
      map Number (Days month)
      = map (fun j => Z.of_nat j + 1) (seq 0 (length (Days month))).
Proof.
  intros Hangle Hc.
  destruct (generateCalendarYear_run_shape eph civ events observer c Hangle Hc)
    as (st & c' & Hrun & _ & _ & (_ & _ & Hmonths)).
  eexists _, c'. split; [exact Hrun|].
  intros month Hin. apply list_elem_of_lookup in Hin as [i Hl].
  apply lookup_finalize in Hl as (m0 & Hl & ->). cbn [finalizeMonth Days].
  destruct (Hmonths i m0 Hl) as (_ & Hnum & _).
  apply list_eq. intros j.
  change (map ?f ?l) with (f <$> l). rewrite !list_lookup_fmap.
  destruct (Days m0 !! j) as [d|] eqn:Ed; cbn.
  - rewrite lookup_seq_lt by (apply lookup_lt_Some in Ed; exact Ed). cbn.
    f_equal. apply (Hnum j d Ed).
  - rewrite lookup_seq_ge by (apply lookup_ge_None in Ed; exact Ed). reflexivity.
Qed.

(** X13.  In every month of a generated year the days stand in the order
    of their dates: a day later in the array has a later date, on a later
    civil day. *)
Theorem days_of_a_month_are_in_date_order (c : gmap Z Q) :
  angleContract eph -> cacheOk eph c ->
  exists cal c',
    generateCalendarYear eph civ events observer c = (Ok cal, c') /\
    forall (month : Month) (j1 j2 : nat) (d1 d2 : Day),
      month ∈ cal -> (j1 < j2)%nat ->
      Days month !! j1 = Some d1 -> Days month !! j2 = Some d2 ->
      Date d1 < Date d2 /\ utcDay (Date d1) < utcDay (Date d2).
Proof.
  intros Hangle Hc.
  destruct (generateCalendarYear_run_shape eph civ events observer c Hangle Hc)
    as (st & c' & Hrun & _ & _ & (_ & _ & Hmonths)).
  eexists _, c'. split; [exact Hrun|].
  intros month j1 j2 d1 d2 Hin Hlt H1 H2. apply list_elem_of_lookup in Hin as [i Hl].
  apply lookup_finalize in Hl as (m0 & Hl & ->). cbn [finalizeMonth Days] in H1, H2.
  destruct (Hmonths i m0 Hl) as (_ & Hnum & Hsorted).
  pose proof (Hsorted j1 j2 d1 d2 Hlt H1 H2) as Hd. split; [exact Hd|].
  destruct (Hnum j1 d1 H1) as (_ & q1 & _ & (Hd1 & _)).
  destruct (Hnum j2 d2 H2) as (_ & q2 & _ & (Hd2 & _)).
  rewrite Hd1, Hd2 in *. unfold noonUtc in *. rewrite !utcDay_dateOfDay in *.
  unfold utcDay, MILLISECONDS_PER_DAY in *.
  rewrite !Z.div_add_l by lia. change (43200000 / 86400000) with 0. lia.
Qed.

(** X14.  Every day record of a generated year belongs to one day of the
    pass: its date is noon UTC of that day, its start, noon and end of the
    solar day, its Moon phase and its delta are those [getDayInfo] gives
    for that day, and its degree is the degree of the solar noon it
    carries. *)
Theorem day_record_carries_its_solar_day (c : gmap Z Q) :
  angleContract eph -> cacheOk eph c ->
  exists cal c',
    generateCalendarYear eph civ events observer c = (Ok cal, c') /\
    forall (d : Day), d ∈ allDays cal ->
      (exists q, (q < daysToSweep events)%nat /\ dayOfPass eph events observer q d) /\
      SolarDegree d = degreeAt eph (referenceLongitude eph events) (SolarNoon d).
Proof.
  intros Hangle Hc.
  destruct (generateCalendarYear_run_shape eph civ events observer c Hangle Hc)
    as (st & c' & Hrun & _ & (_ & _ & _ & _ & Hdays) & (_ & _ & Hmonths)).
  eexists _, c'. split; [exact Hrun|].
  intros d Hin. rewrite allDays_finalize in Hin. unfold allDays in Hin.
  apply list_elem_of_In, in_concat in Hin as (l & Hl & Hd).
  apply in_map_iff in Hl as (month & <- & Hmonth).
  apply list_elem_of_In, list_elem_of_lookup in Hmonth as [i Hi].
  apply list_elem_of_In in Hd. pose proof Hd as Hd'.
  apply list_elem_of_lookup in Hd' as [j Hj].
  destruct (Hmonths i month Hi) as (_ & Hnum & _).
  destruct (Hnum j d Hj) as (_ & q & Hq & Hpass).
  split; [exists q; split; assumption|].
  destruct (Hdays i month d Hi Hd) as (k & Hk & (Hdate & Hdeg & _) & _).
  assert (k = q) as ->.
  { destruct Hpass as (Hdate' & _). rewrite Hdate in Hdate'. unfold noonUtc in Hdate'.
    rewrite !utcDay_dateOfDay in Hdate'. unfold MILLISECONDS_PER_DAY in Hdate'. lia. }
  rewrite Hdeg. destruct Hpass as (_ & _ & Hnoon & _). rewrite Hnoon. reflexivity.
Qed.
End Structure.

(** ** The moment kept and the birthday *)

Lemma filter_ext_in {A} (P1 P2 : A -> Prop)
      `{!forall x, Decision (P1 x), !forall x, Decision (P2 x)} (l : list A) :
  (forall x, x ∈ l -> (P1 x <-> P2 x)) -> filter P1 l = filter P2 l.
Proof.
  induction l as [|a l IH]; intros Hext; [reflexivity|].
  rewrite !filter_cons.
  assert (P1 a <-> P2 a) as Ha by (apply Hext; left).
  rewrite IH by (intros x Hx; apply Hext; right; exact Hx).
  destruct (decide (P1 a)), (decide (P2 a)); tauto.
Qed.

Lemma map_filter_the_one {A} (f : A -> Z) (x : Z) (l : list A) :
  NoDup (map f l) -> x ∈ map f l ->
  map f (filter (fun a => f a = x) l) = [x].
Proof.
  induction l as [|a l IH]; cbn [map]; intros Hnd Hin; [inversion Hin|].
  apply NoDup_cons in Hnd as [Hnotin Hnd]. rewrite filter_cons.
  destruct (decide (f a = x)) as [Hfa|Hfa].
  - cbn [map]. rewrite Hfa. f_equal.
    assert (filter (fun a0 => f a0 = x) l = []) as ->; [|reflexivity].
    destruct (filter (fun a0 => f a0 = x) l) as [|b l'] eqn:Hfl; [reflexivity|].
    assert (b ∈ filter (fun a0 => f a0 = x) l) as Hb by (rewrite Hfl; left).
    apply list_elem_of_filter in Hb as [Hfb Hb]. exfalso. apply Hnotin.
    rewrite Hfa, <- Hfb. change (f b ∈ f <$> l). apply list_elem_of_fmap_2. exact Hb.
  - apply IH; [exact Hnd|]. apply elem_of_cons in Hin as [Hx|Hin]; [congruence | exact Hin].
Qed.

Section Matches.
Variable eph : Ephemeris.
Variable events : Events.
Variable observer : Observer.
Variables sel T : Q.

Lemma foundAfter_last_match (k n : nat) (m : Z) :
  (k < n)%nat ->
  dayMatch eph events observer sel T k = Some m ->
  (forall j, (k < j < n)%nat -> dayMatch eph events observer sel T j = None) ->
  foundAfter eph events observer sel T n = m.
Proof.
  induction n as [|n IH]; intros Hk Hm Hnone; [lia|].
  cbn [foundAfter]. destruct (decide (k = n)) as [->|Hne].
  - rewrite Hm. reflexivity.
  - rewrite (Hnone n) by lia. apply IH; [lia | exact Hm |].
    intros j Hj. apply Hnone. lia.
Qed.

Lemma dayMatch_uncached (k : nat) :
  dayMatch eph events observer sel T k
  = UncachedSearch.searchDay eph sel T (getDayInfo eph observer (dateOfDay events k)).
Proof.
  unfold dayMatch, valueOf.
  rewrite (proj1 (searchDay_refines eph sel T _ ∅ (cacheOk_empty eph))). reflexivity.
Qed.
End Matches.

Section Birthday.
Variable eph : Ephemeris.
Variable civ : CivilTime.
Variable events : Events.
Variable observer : Observer.

(** X15.  When the search matches on a day of the pass and on no later
    day, the moment kept at the end of the pass is the match of that day,
    whatever was found before; it lies in the solar day of that day. *)
Theorem latest_match_is_the_moment_kept (c : gmap Z Q) (k : nat) (m : Z) :
  angleContract eph -> cacheOk eph c ->
  (k < daysToSweep events)%nat ->
  UncachedSearch.searchDay eph (referenceLongitude eph events) (targetDegree eph civ events)
    (getDayInfo eph observer (dateOfDay events k)) = Some m ->
  (forall j, (k < j < daysToSweep events)%nat ->
     UncachedSearch.searchDay eph (referenceLongitude eph events)
       (targetDegree eph civ events)
       (getDayInfo eph observer (dateOfDay events j)) = None) ->
  exists st c',
    sweepYear eph civ events observer c = (Ok st, c') /\
    finalFoundBirthMoment st = m /\
    di_SolarStart (getDayInfo eph observer (dateOfDay events k)) <= m
    <= di_SolarEnd (getDayInfo eph observer (dateOfDay events k)).
Proof.
  intros Hangle Hc Hk Hm Hnone.
  destruct (sweepYear_run eph civ Hangle events observer c Hc)
    as (st & c' & Hrun & _ & (_ & Hfound & _)).
  exists st, c'. split; [exact Hrun|]. split.
  - rewrite Hfound. apply (foundAfter_last_match eph events observer _ _ k); [exact Hk | |].
    + rewrite dayMatch_uncached. exact Hm.
    + intros j Hj. rewrite dayMatch_uncached. apply Hnone. exact Hj.
  - apply (uncached_searchDay_sound eph _ _ _ m Hm).
Qed.

(** X16.  When the search matches on one day of the pass only, the civil
    date of the match is the date of that day or of a later day of the
    pass, and the civil date of the birth is not one of the days before
    it, exactly one day record of the generated year carries a
    [BirthOrbit] event: the record whose date is the date of the match,
    and the event is its only event. *)
Theorem one_birthday_when_one_day_matches (c : gmap Z Q) (k0 : nat) (m : Z) :
  angleContract eph -> cacheOk eph c ->
  (k0 < daysToSweep events)%nat ->
  UncachedSearch.searchDay eph (referenceLongitude eph events) (targetDegree eph civ events)
    (getDayInfo eph observer (dateOfDay events k0)) = Some m ->
  (forall j, (j < daysToSweep events)%nat -> j <> k0 ->
     UncachedSearch.searchDay eph (referenceLongitude eph events)
       (targetDegree eph civ events)
       (getDayInfo eph observer (dateOfDay events j)) = None) ->
  (forall j, (j < k0)%nat -> utcDay (Birth events) <> utcDay (dateOfDay events j)) ->
  utcDay (dateOfDay events k0) <= utcDay m
  < utcDay (SpringEquinox events) + Z.of_nat (daysToSweep events) ->
  exists cal c',
    generateCalendarYear eph civ events observer c = (Ok cal, c') /\
    birthOrbitDates cal = [utcDay m] /\
    forall d, d ∈ allDays cal -> utcDay (Date d) = utcDay m ->
              DayEvents d = [BirthOrbit m].
Proof.
  intros Hangle Hc Hk0 Hm Hnone Hbirth Hdate.
  destruct (generateCalendarYear_run eph civ Hangle events observer c Hc)
    as (st & c' & Hrun & _ & (_ & _ & _ & Hperm & Hdays)).
  eexists _, c'. split; [exact Hrun|].
  set (sel := Uncached.getHeliocentricLongitude eph (SpringEquinox events)) in *.
  set (T := Uncached.getBirthDegree eph civ (Birth events)) in *.
  assert (forall k, (k < daysToSweep events)%nat ->
            foundAfter eph events observer sel T (S k)
            = if decide (k < k0)%nat then Birth events else m) as Hfound.
  { intros k Hk. destruct (decide (k < k0)%nat) as [Hlt|Hge].
    - apply foundAfter_no_match. intros j Hj. rewrite dayMatch_uncached.
      apply Hnone; lia.
    - apply (foundAfter_last_match eph events observer _ _ k0); [lia | |].
      + rewrite dayMatch_uncached. exact Hm.
      + intros j Hj. rewrite dayMatch_uncached. apply Hnone; lia. }
  assert (forall d, d ∈ allDays (newCalendar st) ->
            (utcDay (Date d) = utcDay m -> DayEvents d = [BirthOrbit m]) /\
            (carriesBirthOrbit d = true <-> utcDay (Date d) = utcDay m)) as Hchar.
  { intros d Hin. unfold allDays in Hin.
    apply list_elem_of_In, in_concat in Hin as (l & Hl & Hd).
    apply in_map_iff in Hl as (month & <- & Hmonth).
    apply list_elem_of_In, list_elem_of_lookup in Hmonth as [i Hi].
    apply list_elem_of_In in Hd.
    destruct (Hdays i month d Hi Hd) as (k & Hk & (Hdt & _ & Hev) & _).
    assert (utcDay (Date d) = utcDay (dateOfDay events k)) as Hday.
    { rewrite Hdt. unfold noonUtc, utcDay, MILLISECONDS_PER_DAY.
      rewrite Z.div_add_l by lia. change (43200000 / 86400000) with 0. lia. }
    unfold carriesBirthOrbit. rewrite Hday, Hev, utcDay_dateOfDay.
    rewrite utcDay_dateOfDay in Hdate. pose proof (Hfound k Hk) as Hf.
    destruct (decide (k < k0)%nat) as [Hlt|Hge]; rewrite Hf; clear Hf.
    - rewrite (eventsOfDay_other _ _ _ (Hbirth k Hlt)), astronomical_not_birth.
      split; [intros; lia | split; [discriminate | lia]].
    - destruct (decide (utcDay m = utcDay (dateOfDay events k))) as [He|Hne].
      + rewrite (eventsOfDay_birth _ _ _ He). rewrite utcDay_dateOfDay in He.
        split; [reflexivity | split; [intros _; lia | reflexivity]].
      + rewrite (eventsOfDay_other _ _ _ Hne), astronomical_not_birth.
        rewrite utcDay_dateOfDay in Hne.
        split; [intros; lia | split; [discriminate | lia]]. }
  split.
  - unfold birthOrbitDates. rewrite allDays_finalize.
    rewrite (filter_ext_in _ (fun d => utcDay (Date d) = utcDay m))
      by (intros d Hd; apply Hchar; exact Hd).
    apply (map_filter_the_one (fun d => utcDay (Date d))).
    + rewrite <- (map_map Date utcDay), Hperm, map_map.
      change (NoDup ((fun j => utcDay (noonUtc (dateOfDay events j)))
                       <$> seq 0 (daysToSweep events))).
      apply NoDup_fmap_2_strong; [|apply NoDup_seq].
      intros j1 j2 _ _ H. unfold noonUtc, utcDay at 1 3, MILLISECONDS_PER_DAY in H.
      rewrite !Z.div_add_l in H by lia. rewrite !utcDay_dateOfDay in H. lia.
    + rewrite <- (map_map Date utcDay), Hperm, map_map.
      rewrite utcDay_dateOfDay in Hdate.
      change (utcDay m ∈ (fun j => utcDay (noonUtc (dateOfDay events j)))
                <$> seq 0 (daysToSweep events)).
      apply list_elem_of_fmap.
      exists (Z.to_nat (utcDay m - utcDay (SpringEquinox events))). split.
      * unfold noonUtc, utcDay at 2, MILLISECONDS_PER_DAY.
        rewrite Z.div_add_l by lia. rewrite utcDay_dateOfDay.
        change (43200000 / 86400000) with 0. lia.
      * apply elem_of_seq. lia.
  - intros d Hd. rewrite allDays_finalize in Hd. apply Hchar. exact Hd.
Qed.
End Birthday.

Section Events.
Variable eph : Ephemeris.
Variable civ : CivilTime.
Variable events : Events.
Variable observer : Observer.

(** X21.  No equinox, solstice or apsis of the year is lost, unless the
    birthday displaces it: for each of the six events whose civil date
    lies in the pass, the generated year has a day record of that date,
    and the record lists the event or has a [BirthOrbit] event of that
    date as its only event. *)
Theorem astronomical_events_are_on_their_days (c : gmap Z Q) (e : CalEvent) :
  angleContract eph -> cacheOk eph c ->
  e ∈ equinoxSolsticeEvents events ->
  utcDay (SpringEquinox events) <= utcDay (ev_date e) < utcDay (SpringEquinox2 events) ->
  exists cal c',
    generateCalendarYear eph civ events observer c = (Ok cal, c') /\
    exists d, d ∈ allDays cal /\
      utcDay (Date d) = utcDay (ev_date e) /\
      (e ∈ DayEvents d \/
       exists found, utcDay found = utcDay (ev_date e) /\ DayEvents d = [BirthOrbit found]).
Proof.
  intros Hangle Hc He Hrange.
  destruct (generateCalendarYear_run eph civ Hangle events observer c Hc)
    as (st & c' & Hrun & _ & (_ & _ & _ & Hperm & Hdays)).
  eexists _, c'. split; [exact Hrun|]. rewrite allDays_finalize.
  set (j := Z.to_nat (utcDay (ev_date e) - utcDay (SpringEquinox events))).
  assert (utcDay (dateOfDay events j) = utcDay (ev_date e)) as Hj
    by (rewrite utcDay_dateOfDay; unfold j; lia).
  assert (noonUtc (dateOfDay events j) ∈ map Date (allDays (newCalendar st))) as Hin.
  { rewrite Hperm. apply (list_elem_of_fmap_2 (fun j => noonUtc (dateOfDay events j))).
    apply elem_of_seq. unfold daysToSweep, j. lia. }
  apply list_elem_of_In, in_map_iff in Hin as (d & Hd & Hin).
  exists d. split; [apply list_elem_of_In; exact Hin|].
  assert (forall t, utcDay (noonUtc t) = utcDay t) as Hnoon.
  { intros t. unfold noonUtc, utcDay at 1, MILLISECONDS_PER_DAY.
    rewrite Z.div_add_l by lia. change (43200000 / 86400000) with 0. lia. }
  split; [rewrite Hd, Hnoon; exact Hj|].
  unfold allDays in Hin. apply in_concat in Hin as (l & Hl & Hdl).
  apply in_map_iff in Hl as (month & <- & Hmonth).
  apply list_elem_of_In, list_elem_of_lookup in Hmonth as [i Hi].
  apply list_elem_of_In in Hdl.
  destruct (Hdays i month d Hi Hdl) as (k & Hk & (Hdt & _ & Hev) & _).
  assert (k = j) as ->.
  { rewrite Hdt in Hd. apply (f_equal utcDay) in Hd. rewrite !Hnoon in Hd.
    rewrite !utcDay_dateOfDay in Hd. lia. }
  rewrite Hev.
  set (found := foundAfter eph events observer _ _ (S j)).
  destruct (decide (utcDay found = utcDay (dateOfDay events j))) as [Hsame|Hdiff].
  - right. exists found. split; [lia|]. apply eventsOfDay_birth. exact Hsame.
  - left. rewrite (eventsOfDay_other _ _ _ Hdiff).
    apply list_elem_of_filter. split; [symmetry; exact Hj | exact He].
Qed.
End Events.

(** ** The solar day, the Moon and the degree *)

Lemma floor_div45 (v : Q) (n : Z) :
  (45 * inject_Z n <= v)%Q -> (v < 45 * inject_Z n + 45)%Q -> Qfloor (v / 45) = n.
Proof.
  intros Hlo Hhi. apply Qfloor_bounds.
  - apply Qle_shift_div_l; [reflexivity | lra].
  - apply Qlt_shift_div_r; [reflexivity|].
    rewrite inject_Z_plus. change (inject_Z 1) with 1%Q. lra.
Qed.

(** X17.  The names of the Moon phase leave no gap: a phase angle from 0 to
    360 gets the name of the eighth of the circle it lies in, 45 degrees
    each and counted from the New Moon, the angle 360 itself the last
    name; any other angle gets the empty name. *)
Theorem moon_phase_is_the_name_of_the_octant (Moon : Q) :
  moonPhaseName Moon
  = if Qle_bool 0 Moon && Qle_bool Moon 360
    then nth (Z.to_nat (Z.min 7 (Qfloor (Moon / 45)))) moonPhaseNames ""%string
    else ""%string.
Proof.
  unfold moonPhaseName.
  repeat match goal with
    | |- context [Qle_bool ?a ?b] =>
        destruct (Qle_bool a b) eqn:?; cbn [andb]; qbool; try (exfalso; lra)
    | |- context [Qltb ?a ?b] =>
        destruct (Qltb a b) eqn:?; cbn [andb]; qbool; try (exfalso; lra)
    end;
    try reflexivity;
    first
      [ rewrite (floor_div45 Moon 0) by (unfold inject_Z; lra); reflexivity
      | rewrite (floor_div45 Moon 1) by (unfold inject_Z; lra); reflexivity
      | rewrite (floor_div45 Moon 2) by (unfold inject_Z; lra); reflexivity
      | rewrite (floor_div45 Moon 3) by (unfold inject_Z; lra); reflexivity
      | rewrite (floor_div45 Moon 4) by (unfold inject_Z; lra); reflexivity
      | rewrite (floor_div45 Moon 5) by (unfold inject_Z; lra); reflexivity
      | rewrite (floor_div45 Moon 6) by (unfold inject_Z; lra); reflexivity
      | idtac ].
  assert (7 <= Qfloor (Moon / 45)) as Hfl.
  { apply Qfloor_resp_le with (x := 7%Q) (y := (Moon / 45)%Q).
    apply Qle_shift_div_l; [reflexivity | lra]. }
  rewrite Z.min_l by exact Hfl. reflexivity.
Qed.

(** X18.  The delta of a day gives back the length of its solar day: 24
    hours plus or minus, by the sign, the seconds it shows.  The seconds
    are never negative, the sign is [+] or [-], and [-] is never shown
    with zero seconds. *)
Theorem delta_recovers_the_length_of_the_solar_day
        (eph : Ephemeris) (observer : Observer) (date : Z) :
  let dayInfo := getDayInfo eph observer date in
  (inject_Z (di_SolarEnd dayInfo - di_SolarStart dayInfo)
   == inject_Z MILLISECONDS_PER_DAY
      + inject_Z (deltaSign (fst (di_Delta dayInfo))) * (1000 * snd (di_Delta dayInfo)))%Q /\
  (0 <= snd (di_Delta dayInfo))%Q /\
  (fst (di_Delta dayInfo) = "-"%string -> 0 < snd (di_Delta dayInfo))%Q /\
  (fst (di_Delta dayInfo) = "+"%string \/ fst (di_Delta dayInfo) = "-"%string).
Proof.
  cbv zeta. unfold getDayInfo. cbn [di_SolarEnd di_SolarStart di_Delta fst snd].
  set (len := SearchHourAngle eph observer HOUR_ANGLE_HORIZON _ 1
              - SearchHourAngle eph observer HOUR_ANGLE_HORIZON _ (-1)).
  unfold MILLISECONDS_PER_DAY.
  assert (forall z : Z, (inject_Z z / 1000 == z # 1000)%Q) as Hdiv.
  { intros z. unfold Qeq, Qdiv, Qmult, Qinv, inject_Z. cbn. lia. }
  destruct (86400000 <=? len) eqn:E; [apply Z.leb_le in E | apply Z.leb_gt in E].
  - change (deltaSign "+") with 1. rewrite Z.abs_eq by lia.
    split; [|split; [|split]].
    + rewrite Hdiv. unfold Qeq, Qplus, Qmult, inject_Z. cbn. lia.
    + rewrite Hdiv. unfold Qle. cbn. lia.
    + discriminate.
    + left. reflexivity.
  - change (deltaSign "-") with (-1). rewrite Z.abs_neq by lia.
    split; [|split; [|split]].
    + rewrite Hdiv. unfold Qeq, Qplus, Qmult, inject_Z. cbn. lia.
    + rewrite Hdiv. unfold Qle. cbn. lia.
    + intros _. rewrite Hdiv. unfold Qlt. cbn. lia.
    + right. reflexivity.
Qed.

(** X19.  For the events [eventList] gives for a year,
    [generateCalendarYear] produces day records dated at noon UTC, on
    civil dates from that of the March equinox of the year up to, not
    including, that of the March equinox of the next year, and every
    civil date in between has a record. *)
Theorem generated_days_are_the_noons_between_two_equinoxes
        (eph : Ephemeris) (civ : CivilTime) (year birth : Z)
        (observer : Observer) (c : gmap Z Q) :
  angleContract eph -> cacheOk eph c ->
  exists cal c',
    generateCalendarYear eph civ (eventList eph civ year birth) observer c = (Ok cal, c') /\
    (forall d, d ∈ allDays cal ->
       Date d mod MILLISECONDS_PER_DAY = 43200000 /\
       utcDay (mar_equinox (Seasons eph year)) <= utcDay (Date d)
       < utcDay (mar_equinox (Seasons eph (year + 1)))) /\
    (forall u, utcDay (mar_equinox (Seasons eph year)) <= u
               < utcDay (mar_equinox (Seasons eph (year + 1))) ->
       exists d, d ∈ allDays cal /\ utcDay (Date d) = u).
Proof.
  intros Hangle Hc.
  set (events := eventList eph civ year birth).
  destruct (generateCalendarYear_run eph civ Hangle events observer c Hc)
    as (st & c' & Hrun & _ & (_ & _ & _ & Hperm & _)).
  eexists _, c'. split; [exact Hrun|].
  change (mar_equinox (Seasons eph year)) with (SpringEquinox events).
  change (mar_equinox (Seasons eph (year + 1))) with (SpringEquinox2 events).
  rewrite allDays_finalize.
  assert (forall j, utcDay (noonUtc (dateOfDay events j))
                    = utcDay (SpringEquinox events) + Z.of_nat j) as Hnoon.
  { intros j. unfold noonUtc, utcDay at 1, MILLISECONDS_PER_DAY.
    rewrite Z.div_add_l by lia. rewrite utcDay_dateOfDay.
    change (43200000 / 86400000) with 0. lia. }
  split.
  - intros d Hd.
    assert (Date d ∈ map Date (allDays (newCalendar st))) as Hin
      by (apply (list_elem_of_fmap_2 Date); exact Hd).
    rewrite Hperm in Hin. apply list_elem_of_In, in_map_iff in Hin as (j & Hj & Hin).
    apply in_seq in Hin. rewrite <- Hj, Hnoon. split.
    + unfold noonUtc, MILLISECONDS_PER_DAY. rewrite Z.add_comm, Z.mod_add by lia.
      reflexivity.
    + unfold daysToSweep in Hin. lia.
  - intros u Hu.
    set (j := Z.to_nat (u - utcDay (SpringEquinox events))).
    assert (noonUtc (dateOfDay events j) ∈ map Date (allDays (newCalendar st))) as Hin.
    { rewrite Hperm. apply (list_elem_of_fmap_2 (fun j => noonUtc (dateOfDay events j))).
      apply elem_of_seq. unfold daysToSweep, j. lia. }
    apply list_elem_of_In, in_map_iff in Hin as (d & Hd & Hin).
    exists d. split; [apply list_elem_of_In; exact Hin|].
    rewrite Hd, Hnoon. unfold j. lia.
Qed.

Lemma Qmod_add_turns (x : Q) (k : Z) :
  (SpecWording.Qmod (x + 360 * inject_Z k) 360 == SpecWording.Qmod x 360)%Q.
Proof.
  unfold SpecWording.Qmod.
  assert (Qfloor ((x + 360 * inject_Z k) / 360) = Qfloor (x / 360) + k) as ->.
  { pose proof (Qfloor_le (x / 360)) as H1. pose proof (Qlt_floor (x / 360)) as H2.
    apply Qfloor_bounds.
    - rewrite inject_Z_plus.
      assert ((x + 360 * inject_Z k) / 360 == x / 360 + inject_Z k)%Q as -> by field.
      lra.
    - rewrite !inject_Z_plus in *.
      assert ((x + 360 * inject_Z k) / 360 == x / 360 + inject_Z k)%Q as -> by field.
      lra. }
  rewrite inject_Z_plus. ring.
Qed.

Lemma Qmod_comp (x y : Q) :
  (x == y)%Q -> (SpecWording.Qmod x 360 == SpecWording.Qmod y 360)%Q.
Proof.
  intros E. unfold SpecWording.Qmod.
  rewrite (Qfloor_comp (x / 360) (y / 360)) by (rewrite E; reflexivity).
  rewrite E. reflexivity.
Qed.


(** ** The further properties on the circular orbit *)

Lemma cacheOk_singleton (eph : Ephemeris) (t : Z) :
  cacheOk eph {[t := Uncached.getHeliocentricLongitude eph t]}.
Proof.
  intros t' v H. apply lookup_singleton_Some in H as [<- <-]. reflexivity.
Qed.

Lemma forallb_below (P : nat -> bool) (n : nat) :
  forallb P (seq 0 n) = true -> forall j, (j < n)%nat -> P j = true.
Proof.
  intros H j Hj. rewrite forallb_forall in H. apply H, in_seq. lia.
Qed.

Lemma no_result_when_flagged {A} (o : option A) :
  match o with None => true | Some _ => false end = true -> o = None.
Proof. destruct o; [discriminate | reflexivity]. Qed.

Lemma noMatchExcept_None (eph : Ephemeris) (civ : CivilTime) (events : Events)
      (observer : Observer) (skip : nat -> bool) (j : nat) :
  noMatchExcept eph civ events observer skip j = true -> skip j = false ->
  UncachedSearch.searchDay eph (referenceLongitude eph events)
    (targetDegree eph civ events)
    (getDayInfo eph observer (dateOfDay events j)) = None.
Proof.
  intros H Hs. apply no_result_when_flagged.
  apply orb_true_iff in H as [H|H]; [congruence | exact H].
Qed.

Lemma year_does_not_depend_on_cached_longitudes_witness :
  fst (generateCalendarYear eph civ events2025 greenwich
         {[SpringEquinox events2025
           := Uncached.getHeliocentricLongitude eph (SpringEquinox events2025)]})
  = fst (generateCalendarYear eph civ events2025 greenwich ∅).
Proof.
  exact (proj1 (year_does_not_depend_on_cached_longitudes eph civ events2025 greenwich _
                  (cacheOk_singleton eph (SpringEquinox events2025)))).
Defined.

Lemma cached_longitude_is_the_computed_longitude_witness :
  fst (getHeliocentricLongitude eph (equinoxOf 2025) ∅)
  = Ok (Uncached.getHeliocentricLongitude eph (equinoxOf 2025)) /\
  (0 <= Uncached.getHeliocentricLongitude eph (equinoxOf 2025) < 360)%Q.
Proof.
  destruct (cached_longitude_is_the_computed_longitude eph (equinoxOf 2025) ∅
              Circular_angleContract (cacheOk_empty eph)) as (H1 & _ & H2).
  split; [exact H1 | exact H2].
Defined.

Lemma birth_degree_agrees_with_the_uncached_revision_witness :
  fst (getBirthDegree eph civ birthAtMidnight ∅)
  = Ok (Uncached.getBirthDegree eph civ birthAtMidnight).
Proof.
  exact (proj1 (birth_degree_agrees_with_the_uncached_revision eph civ birthAtMidnight ∅
                  Circular_angleContract (cacheOk_empty eph))).
Defined.

(** A call on a state whose cache holds a stale entry.  The birth strings
    denote the epoch, which is the instant the parser of the circular
    instance returns. *)
Lemma returned_calendar_comes_with_a_fresh_cache_witness :
  exists cal,
    fst (generateCalendar eph civ 2025 "1970-01-01" "00:00" "UTC" (5148 # 100) 0 0
           (mkGlobals None {[0%Z := 0%Q]} [])) = Ok cal /\
    length cal = 12%nat /\
    (size (g_cache (snd (generateCalendar eph civ 2025 "1970-01-01" "00:00" "UTC"
                           (5148 # 100) 0 0 (mkGlobals None {[0%Z := 0%Q]} []))))
     <= 3 + 103 * 365)%nat.
Proof.
  assert (fst (generateCalendar eph civ 2025 "1970-01-01" "00:00" "UTC" (5148 # 100) 0 0
                 (mkGlobals None {[0%Z := 0%Q]} []))
          = fst (generateCalendarYear eph civ (eventList eph civ 2025 0) greenwich ∅))
    as Hsame by (unfold generateCalendar; cbn zeta;
                 destruct (generateCalendarYear _ _ _ _ _) as [[?|?] ?]; reflexivity).
  destruct (generateCalendarYear_run eph civ Circular_angleContract
              (eventList eph civ 2025 0) greenwich ∅ (cacheOk_empty eph))
    as (st & c' & Hrun & _).
  rewrite Hrun in Hsame. cbn [fst] in Hsame.
  eexists. split; [exact Hsame|].
  destruct (returned_calendar_comes_with_a_fresh_cache eph civ 2025 "1970-01-01" "00:00"
              "UTC" (5148 # 100) 0 0 (mkGlobals None {[0%Z := 0%Q]} []) _
              Circular_angleContract Hsame) as (Hlen & _ & _ & _ & Hsize).
  split; [exact Hlen | exact Hsize].
Defined.

Lemma memoised_search_is_the_uncached_search_witness :
  fst (searchDay eph sel2025 target (getDayInfo eph greenwich (dateOfDay events2025 73)) ∅)
  = Ok (UncachedSearch.searchDay eph sel2025 target
          (getDayInfo eph greenwich (dateOfDay events2025 73))).
Proof.
  exact (proj1 (memoised_search_is_the_uncached_search eph sel2025 target
                  (getDayInfo eph greenwich (dateOfDay events2025 73)) ∅
                  (cacheOk_empty eph))).
Defined.

Lemma months_are_the_zodiac_in_order_witness :
  exists cal c',
    generateCalendarYear eph civ events2025 greenwich ∅ = (Ok cal, c') /\
    map MonthNo cal = [1; 2; 3; 4; 5; 6; 7; 8; 9; 10; 11; 12].
Proof.
  destruct (months_are_the_zodiac_in_order eph civ events2025 greenwich ∅
              Circular_angleContract (cacheOk_empty eph)) as (cal & c' & Hrun & Hno & _).
  exists cal, c'. split; [exact Hrun | exact Hno].
Defined.

Lemma days_are_numbered_from_one_witness :
  exists cal c',
    generateCalendarYear eph civ events2025 greenwich ∅ = (Ok cal, c') /\
    forall (month : Month), month ∈ cal ->
      map Number (Days month)
      = map (fun j => Z.of_nat j + 1) (seq 0 (length (Days month))).
Proof.
  destruct (days_are_numbered_from_one eph civ events2025 greenwich ∅
              Circular_angleContract (cacheOk_empty eph)) as (cal & c' & Hrun & H).
  exists cal, c'. split; [exact Hrun|].
  exact H.
Defined.

Lemma days_of_a_month_are_in_date_order_witness :
  exists cal c',
    generateCalendarYear eph civ events2025 greenwich ∅ = (Ok cal, c') /\
    forall (month : Month) (j1 j2 : nat) (d1 d2 : Day),
      month ∈ cal -> (j1 < j2)%nat ->
      Days month !! j1 = Some d1 -> Days month !! j2 = Some d2 ->
      Date d1 < Date d2.
Proof.
  destruct (days_of_a_month_are_in_date_order eph civ events2025 greenwich ∅
              Circular_angleContract (cacheOk_empty eph)) as (cal & c' & Hrun & H).
  exists cal, c'. split; [exact Hrun|].
  intros month j1 j2 d1 d2 Hm Hj H1 H2. exact (proj1 (H month j1 j2 d1 d2 Hm Hj H1 H2)).
Defined.

Lemma day_record_carries_its_solar_day_witness :
  exists cal c',
    generateCalendarYear eph civ events2025 greenwich ∅ = (Ok cal, c') /\
    forall (d : Day), d ∈ allDays cal ->
      SolarDegree d = degreeAt eph sel2025 (SolarNoon d).
Proof.
  destruct (day_record_carries_its_solar_day eph civ events2025 greenwich ∅
              Circular_angleContract (cacheOk_empty eph)) as (cal & c' & Hrun & H).
  exists cal, c'. split; [exact Hrun|].
  intros d Hd. exact (proj2 (H d Hd)).
Defined.

Lemma latest_match_is_the_moment_kept_witness :
  exists st c',
    sweepYear eph civ events2025 greenwich ∅ = (Ok st, c') /\
    finalFoundBirthMoment st = 1747613474999.
Proof.
  destruct (latest_match_is_the_moment_kept eph civ events2025 greenwich ∅ 74 1747613474999
              Circular_angleContract (cacheOk_empty eph))
    as (st & c' & Hrun & Hfound & _).
  - vm_compute. lia.
  - vm_compute. reflexivity.
  - intros j Hj. change (daysToSweep events2025) with 365%nat in Hj.
    apply (noMatchExcept_None eph civ events2025 greenwich (fun j => j <=? 74)%nat).
    + apply (forallb_below _ 365); [vm_compute; reflexivity | lia].
    + apply Nat.leb_gt. lia.
  - exists st, c'. split; [exact Hrun | exact Hfound].
Defined.

Lemma one_birthday_when_one_day_matches_witness :
  exists cal c',
    generateCalendarYear eph civ events2025feb greenwich ∅ = (Ok cal, c') /\
    birthOrbitDates cal = [firstDay + 321].
Proof.
  destruct (one_birthday_when_one_day_matches eph civ events2025feb greenwich ∅ 321
              1769004225000 Circular_angleContract (cacheOk_empty eph))
    as (cal & c' & Hrun & Hdates & _).
  - vm_compute. lia.
  - vm_compute. reflexivity.
  - intros j Hj Hne. change (daysToSweep events2025feb) with 365%nat in Hj.
    apply (noMatchExcept_None eph civ events2025feb greenwich (fun j => j =? 321)%nat).
    + apply (forallb_below _ 365); [vm_compute; reflexivity | lia].
    + apply Nat.eqb_neq. exact Hne.
  - intros j Hj. rewrite utcDay_dateOfDay.
    change (utcDay (Birth events2025feb)) with 10984.
    change (utcDay (SpringEquinox events2025feb)) with 20153. lia.
  - vm_compute. split; [discriminate | reflexivity].
  - exists cal, c'. split; [exact Hrun|]. rewrite Hdates. vm_compute. reflexivity.
Defined.

Lemma generated_days_are_the_noons_between_two_equinoxes_witness :
  exists cal c',
    generateCalendarYear eph civ events2025 greenwich ∅ = (Ok cal, c') /\
    exists d, d ∈ allDays cal /\ utcDay (Date d) = firstDay + 100.
Proof.
  destruct (generated_days_are_the_noons_between_two_equinoxes eph civ 2025
              birthAtMidnight greenwich ∅ Circular_angleContract (cacheOk_empty eph))
    as (cal & c' & Hrun & _ & Hall).
  exists cal, c'. split; [exact Hrun|]. apply Hall. vm_compute.
  split; [discriminate | reflexivity].
Defined.

Lemma astronomical_events_are_on_their_days_witness :
  exists cal c',
    generateCalendarYear eph civ events2025 greenwich ∅ = (Ok cal, c') /\
    exists d, d ∈ allDays cal /\
      utcDay (Date d) = utcDay (SummerSolstice events2025) /\
      (mkCalEvent "Summer Solstice" "The longest day of the year."
                  (SummerSolstice events2025) ∈ DayEvents d \/
       exists found, utcDay found = utcDay (SummerSolstice events2025) /\
                     DayEvents d = [BirthOrbit found]).
Proof.
  apply (astronomical_events_are_on_their_days eph civ events2025 greenwich ∅
           (mkCalEvent "Summer Solstice" "The longest day of the year."
                       (SummerSolstice events2025))
           Circular_angleContract (cacheOk_empty eph)).
  - unfold equinoxSolsticeEvents. right. left.
  - vm_compute. split; [discriminate | reflexivity].
Defined.

Lemma Qmod_small (y : Q) : (0 <= y < 360)%Q -> (SpecWording.Qmod y 360 == y)%Q.
Proof.
  intros [Hlo Hhi]. unfold SpecWording.Qmod.
  rewrite (Qfloor_bounds (y / 360) 0).
  - change (inject_Z 0) with 0%Q. ring.
  - apply Qle_shift_div_l; [reflexivity|]. change (inject_Z 0) with 0%Q. lra.
  - apply Qlt_shift_div_r; [reflexivity|]. change (inject_Z (0 + 1)) with 1%Q. lra.
Qed.

Lemma Qmod_shift (y z : Q) :
  (SpecWording.Qmod (SpecWording.Qmod y 360 + z) 360 == SpecWording.Qmod (y + z) 360)%Q.
Proof.
  unfold SpecWording.Qmod at 2.
  set (k := Qfloor (y / 360)).
  assert (y - 360 * inject_Z k + z == (y + z) + 360 * inject_Z (- k))%Q as E
    by (rewrite inject_Z_opp; ring).
  rewrite (Qmod_comp _ _ E). apply Qmod_add_turns.
Qed.

(** On the circular orbit the degree of an instant of the year 2025, before
    it is rounded, is the fraction of the year elapsed since the equinox. *)
Lemma Circular_unrounded_degree (t : Z) :
  0 <= t - equinoxOf 2025 < yearMs ->
  (unroundedDegree t == inject_Z (360 * (t - equinoxOf 2025)) / inject_Z yearMs)%Q.
Proof.
  intros Ht. unfold unroundedDegree, Uncached.getHeliocentricLongitude, DEGREES_IN_CIRCLE.
  pose proof (Circular_angleContract t) as Hangle.
  rewrite js_rem_nonneg by lra.
  assert (sel2025 == 180)%Q as Hsel by (vm_compute; reflexivity).
  assert (SpecWording.Qmod (HelioVectorAngle eph t + 360) 360 - sel2025 + 360
          == SpecWording.Qmod (HelioVectorAngle eph t + 360) 360 + 180)%Q as E
    by (rewrite Hsel; ring).
  rewrite (Qmod_comp _ _ E), Qmod_shift. clear E.
  set (x := (inject_Z (360 * (t - equinoxOf 2025)) / inject_Z yearMs)%Q).
  assert (0 <= x < 360)%Q as Hx.
  { unfold x. split.
    - apply Qle_shift_div_l; [reflexivity|]. rewrite Qmult_0_l.
      change 0%Q with (inject_Z 0). rewrite <- Zle_Qle. lia.
    - apply Qlt_shift_div_r; [reflexivity|].
      change 360%Q with (inject_Z 360). rewrite <- inject_Z_mult, <- Zlt_Qlt. lia. }
  assert (exists k, HelioVectorAngle eph t + 360 + 180 == x + 360 * inject_Z k)%Q as [k E].
  { change (HelioVectorAngle eph t) with (angle t). unfold angle.
    assert ((t - equinoxOf 1970) mod yearMs = t - equinoxOf 2025) as ->.
    { replace (t - equinoxOf 1970) with (t - equinoxOf 2025 + 55 * yearMs)
        by (unfold equinoxOf, yearStart; lia).
      rewrite Z.mod_add by (unfold yearMs, MILLISECONDS_PER_DAY; lia).
      apply Z.mod_small. exact Ht. }
    fold x. destruct (Qle_bool (180 + x) 180).
    - exists 2. change (inject_Z 2) with 2%Q. ring.
    - exists 1. change (inject_Z 1) with 1%Q. ring. }
  rewrite (Qmod_comp _ _ E), Qmod_add_turns. apply Qmod_small. exact Hx.
Qed.

Lemma Circular_degree_is_the_rounded_fraction (t : Z) :
  degreeAt eph sel2025 t = SpecWording.round2 (unroundedDegree t).
Proof.
  unfold degreeAt. rewrite getDegree_normalize; [reflexivity|].
  pose proof (uncached_range eph t Circular_angleContract) as H.
  assert (sel2025 == 180)%Q as Hsel by (vm_compute; reflexivity).
  rewrite Hsel. lra.
Qed.

Lemma Circular_degree_never_decreases (t1 t2 : Z) :
  equinoxOf 2025 <= t1 -> t1 <= t2 -> t2 < equinoxOf 2025 + yearMs ->
  (degreeAt eph sel2025 t1 <= degreeAt eph sel2025 t2)%Q.
Proof.
  intros H1 H12 H2. rewrite !Circular_degree_is_the_rounded_fraction.
  unfold SpecWording.round2, Qle. cbn [Qnum Qden].
  apply Z.mul_le_mono_nonneg_r; [lia|].
  apply Qfloor_resp_le.
  rewrite !Circular_unrounded_degree by lia.
  apply Qplus_le_l, Qmult_le_compat_r; [|discriminate].
  apply Qmult_le_compat_r; [|discriminate].
  rewrite <- Zle_Qle. lia.
Qed.

Lemma search_finds_the_target_witness :
  exists m,
    fst (searchDay eph sel2025 (7262 # 100)
                   (getDayInfo eph greenwich (dateOfDay events2025 73)) ∅) = Ok (Some m) /\
    di_SolarStart (getDayInfo eph greenwich (dateOfDay events2025 73)) <= m
    <= di_SolarEnd (getDayInfo eph greenwich (dateOfDay events2025 73)) /\
    degreeAt eph sel2025 m = 7262 # 100.
Proof.
  apply (search_finds_the_target_when_the_degree_never_decreases eph sel2025 7262
           (getDayInfo eph greenwich (dateOfDay events2025 73)) ∅ (cacheOk_empty eph)).
  - vm_compute. reflexivity.
  - change (di_SolarStart (getDayInfo eph greenwich (dateOfDay events2025 73)))
      with 1747526400000.
    change (di_SolarEnd (getDayInfo eph greenwich (dateOfDay events2025 73)))
      with 1747612800000.
    intros t1 t2 H1 H12 H2. apply Circular_degree_never_decreases; [|exact H12|].
    + change (equinoxOf 2025) with 1741251600000. lia.
    + change (equinoxOf 2025 + yearMs) with 1772787600000. lia.
  - exists 1747612715625. split; [vm_compute; split; discriminate | vm_compute; reflexivity].
Defined.
